(** * scripts/lib/api.py: the Prometheus and Pyroscope clients

    A shallow embedding of [pyro_top_functions] and [prom_instant] with the
    Python values they handle, and the properties of the flamegraph
    self-time aggregation.

    What [json.loads] returns is modelled by [json]; a Python exception is
    the [Raise] outcome of [result].  The HTTP transport is not modelled:
    [pyro_render] and [prom_query]'s fetch are parameters of the functions
    that call them. *)

From Stdlib Require Import ZArith List String Ascii Bool Lia.
From Stdlib Require Import Sorted Permutation Finite.
From Stdlib Require Import SpecFloat QArith.
From Equations Require Import Equations.
From Equations.Prop Require Logic.
Import ListNotations.

Set Default Goal Selector "!".
Set Warnings "-register-all".
Open Scope string_scope.
Open Scope list_scope.
Open Scope Z_scope.

(** ** Python values and exceptions *)

(** The exceptions the modelled statements can raise. *)
Inductive exn : Type :=
| AttributeError
| TypeError
| IndexError
| KeyError
| ValueError
| OverflowError
| ZeroDivisionError.

Inductive result (A : Type) : Type :=
| Ok (a : A)
| Raise (e : exn).
Arguments Ok {A} a.
Arguments Raise {A} e.

Definition bind {A B : Type} (r : result A) (k : A -> result B) : result B :=
  match r with
  | Ok a => k a
  | Raise e => Raise e
  end.

Notation "x <- r ;; k" := (bind r (fun x => k))
  (at level 61, r at next level, right associativity).

(** A value decoded by [json.loads]: [None], [bool], [int], [str], [list]
    and [dict] (its items in insertion order).  Number literals with a
    fraction or an exponent, which Python decodes to [float], are left out:
    the flamebearer carries integers. *)
Inductive json : Type :=
| JNull
| JBool (b : bool)
| JInt (z : Z)
| JStr (s : string)
| JArr (items : list json)
| JObj (fields : list (string * json)).

Fixpoint assoc (k : string) (fields : list (string * json)) : option json :=
  match fields with
  | [] => None
  | (k', v) :: rest => if String.eqb k k' then Some v else assoc k rest
  end.

(** [d.get(k, default)]: only a dict has the method. *)
Definition dict_get (d : json) (k : string) (default : json) : result json :=
  match d with
  | JObj fields =>
      match assoc k fields with
      | Some v => Ok v
      | None => Ok default
      end
  | _ => Raise AttributeError
  end.

(** [d[k]] on a dict with a string key. *)
Definition dict_item (d : json) (k : string) : result json :=
  match d with
  | JObj fields =>
      match assoc k fields with
      | Some v => Ok v
      | None => Raise KeyError
      end
  | _ => Raise TypeError
  end.

(** The integer a [bool] or [int] stands for in arithmetic and comparisons
    ([bool] is a subclass of [int]). *)
Definition as_int (v : json) : option Z :=
  match v with
  | JInt z => Some z
  | JBool b => Some (if b then 1 else 0)
  | _ => None
  end.

(** [v == 0]: never raises. *)
Definition py_eq_zero (v : json) : bool :=
  match as_int v with
  | Some z => z =? 0
  | None => false
  end.

(** [v < n] and [v > n] against an [int]: a [TypeError] for anything that
    is not a number. *)
Definition py_lt (v : json) (n : Z) : result bool :=
  match as_int v with
  | Some z => Ok (z <? n)
  | None => Raise TypeError
  end.

Definition py_gt (v : json) (n : Z) : result bool :=
  match as_int v with
  | Some z => Ok (n <? z)
  | None => Raise TypeError
  end.

Fixpoint chars (s : string) : list json :=
  match s with
  | EmptyString => []
  | String c rest => JStr (String c EmptyString) :: chars rest
  end.

(** [len(v)]. *)
Definition py_len (v : json) : result nat :=
  match v with
  | JArr items => Ok (List.length items)
  | JStr s => Ok (String.length s)
  | JObj fields => Ok (List.length fields)
  | _ => Raise TypeError
  end.

(** What [for x in v] runs over: the items of a list, the characters of a
    string, the keys of a dict. *)
Definition py_iter (v : json) : result (list json) :=
  match v with
  | JArr items => Ok items
  | JStr s => Ok (chars s)
  | JObj fields => Ok (map (fun kv => JStr (fst kv)) fields)
  | _ => Raise TypeError
  end.

(** [seq[i]] on a sequence of [n] elements: a negative index counts from
    the end, and an index outside [-n, n) is an [IndexError]. *)
Definition seq_item (items : list json) (i : Z) : result json :=
  let n := Z.of_nat (List.length items) in
  let j := if i <? 0 then i + n else i in
  if (0 <=? j) && (j <? n)
  then match nth_error items (Z.to_nat j) with
       | Some v => Ok v
       | None => Raise IndexError
       end
  else Raise IndexError.

(** [v[i]] with an integer subscript: a dict decoded from JSON has only
    string keys, so the lookup is a [KeyError]. *)
Definition py_getitem (v : json) (i : Z) : result json :=
  match v with
  | JArr items => seq_item items i
  | JStr s => seq_item (chars s) i
  | JObj _ => Raise KeyError
  | _ => Raise TypeError
  end.

(** ** Dict keys *)

(** [None], [bool], [int] and [str] are hashable; a list or a dict as a
    key is a [TypeError]. *)
Definition hashable (k : json) : bool :=
  match k with
  | JArr _ | JObj _ => false
  | _ => true
  end.

(** Equality of two hashable keys: [True == 1] and [False == 0]. *)
Definition key_eqb (k1 k2 : json) : bool :=
  match k1, k2 with
  | JNull, JNull => true
  | JStr s1, JStr s2 => String.eqb s1 s2
  | _, _ =>
      match as_int k1, as_int k2 with
      | Some z1, Some z2 => z1 =? z2
      | _, _ => false
      end
  end.

(** ** Floats

    A Python [float] is an IEEE 754 binary64 number, here a [spec_float] of
    the Standard Library (sign, 53-bit mantissa, exponent).  The three
    operations of [round(val / total * 100, 1)] are each one correctly
    rounded step, to nearest with ties to even:
    - [int / int] rounds the exact quotient once ([long_true_divide]);
    - [float * float] rounds the exact product;
    - [round(x, 1)] rounds the exact value of [x] to one decimal, ties to
      the even digit, and reads that decimal back as a double
      ([double_round]: [dtoa] in mode 3, then [strtod]). *)

(** [round_half_even num den]: the integer nearest to [num / den], for
    [0 <= num] and [0 < den]. *)
Definition round_half_even (num den : Z) : Z :=
  let q := num / den in
  let r := num mod den in
  match 2 * r ?= den with
  | Lt => q
  | Gt => q + 1
  | Eq => if Z.even q then q else q + 1
  end.

(** [2 ^ k <= a / b], for positive [a] and [b]. *)
Definition pow2_le_frac (k a b : Z) : bool :=
  if 0 <=? k then b * 2 ^ k <=? a else b <=? a * 2 ^ (- k).

(** The exponent of the binade of [a / b]: [2 ^ flog2 <= a / b < 2 ^
    (flog2 + 1)], for positive [a] and [b]. *)
Definition flog2 (a b : Z) : Z :=
  let k := Z.log2 a - Z.log2 b in
  if pow2_le_frac k a b then k else k - 1.

(** The exponent of the unit in the last place of the double nearest to
    [a / b]: 53 significant bits, and [2 ^ -1074] for the subnormals. *)
Definition ulp_exp (a b : Z) : Z := Z.max (-1074) (flog2 a b - 52).

(** [a / b] in units of [2 ^ e], rounded to an integer. *)
Definition scaled_round (a b e : Z) : Z :=
  if 0 <=? e then round_half_even a (b * 2 ^ e)
  else round_half_even (a * 2 ^ (- e)) b.

(** The double nearest to [a / b] ([0 <= a], [0 < b]) with sign [s]: an
    infinity when the rounded value does not fit. *)
Definition round_binary64 (s : bool) (a b : Z) : spec_float :=
  if a =? 0 then S754_zero s
  else
    let e := ulp_exp a b in
    let m := scaled_round a b e in
    let '(m, e) := if m =? 2 ^ 53 then (2 ^ 52, e + 1) else (m, e) in
    match m with
    | Zpos p => if 971 <? e then S754_infinity s else S754_finite s p e
    | _ => S754_zero s
    end.

(** [a / b] on two [int]s. *)
Definition int_truediv (a b : Z) : result spec_float :=
  if b =? 0 then Raise ZeroDivisionError
  else
    match round_binary64 (xorb (a <? 0) (b <? 0)) (Z.abs a) (Z.abs b) with
    | S754_infinity _ => Raise OverflowError
    | x => Ok x
    end.

(** [float(k)] for an [int] that a double holds exactly, as [100] does. *)
Definition float_of_int (k : Z) : spec_float :=
  round_binary64 (k <? 0) (Z.abs k) 1.

(** The magnitude [m * 2 ^ e] as a fraction. *)
Definition frac_of (m : positive) (e : Z) : Z * Z :=
  if 0 <=? e then (Zpos m * 2 ^ e, 1) else (Zpos m, 2 ^ (- e)).

(** [x * y] on two [float]s. *)
Definition float_mul (x y : spec_float) : spec_float :=
  match x, y with
  | S754_nan, _ | _, S754_nan => S754_nan
  | S754_infinity sx, S754_infinity sy => S754_infinity (xorb sx sy)
  | S754_infinity sx, S754_finite sy _ _ => S754_infinity (xorb sx sy)
  | S754_finite sx _ _, S754_infinity sy => S754_infinity (xorb sx sy)
  | S754_infinity _, S754_zero _ | S754_zero _, S754_infinity _ => S754_nan
  | S754_zero sx, S754_zero sy => S754_zero (xorb sx sy)
  | S754_zero sx, S754_finite sy _ _ => S754_zero (xorb sx sy)
  | S754_finite sx _ _, S754_zero sy => S754_zero (xorb sx sy)
  | S754_finite sx mx ex, S754_finite sy my ey =>
      let '(ax, bx) := frac_of mx ex in
      let '(ay, by_) := frac_of my ey in
      round_binary64 (xorb sx sy) (ax * ay) (bx * by_)
  end.

(** [round(x, 1)]: an infinity or a NaN rounds to itself. *)
Definition py_round1 (x : spec_float) : result spec_float :=
  match x with
  | S754_finite s m e =>
      let '(a, b) := frac_of m e in
      let tenths := round_half_even (10 * a) b in
      match round_binary64 s tenths 10 with
      | S754_infinity _ => Raise OverflowError
      | r => Ok r
      end
  | _ => Ok x
  end.

(** ** The self-time accumulator

    [self_map] is a [dict]: its items in insertion order.  Assigning to a
    key it holds replaces the value in place and keeps the key object first
    inserted; a new key goes to the end. *)

Definition self_map : Type := list (json * Z).

(** [self_map.get(k, default)] *)
Fixpoint sm_get (sm : self_map) (k : json) (default : Z) : Z :=
  match sm with
  | [] => default
  | (k', v) :: rest => if key_eqb k k' then v else sm_get rest k default
  end.

(** [self_map[k] = v] *)
Fixpoint sm_set (sm : self_map) (k : json) (v : Z) : self_map :=
  match sm with
  | [] => [(k, v)]
  | (k', v') :: rest =>
      if key_eqb k k' then (k', v) :: rest else (k', v') :: sm_set rest k v
  end.

(** [names[name_idx]], reached with a [name_idx] that passed
    [name_idx < len(names)] and so is an [int] or a [bool]. *)
Definition py_subscript (v idx : json) : result json :=
  match as_int idx with
  | Some z => py_getitem v z
  | None =>
      match v, idx with
      | JObj _, JStr k => dict_item v k
      | JObj _, JNull => Raise KeyError
      | _, _ => Raise TypeError
      end
  end.

(** The [if] statement of the loop body, on the two fields it reads:
<<
    if name_idx < len(names) and self_val > 0:
        self_map[names[name_idx]] = self_map.get(names[name_idx], 0) + self_val
>> *)
Definition frame_body (names name_idx self_val : json) (sm : self_map)
  : result self_map :=
  len_names <- py_len names ;;
  in_range <- py_lt name_idx (Z.of_nat len_names) ;;
  if in_range then
    positive <- py_gt self_val 0 ;;
    if positive then
      key <- py_subscript names name_idx ;;
      if hashable key then
        match as_int self_val with
        | Some v => Ok (sm_set sm key (sm_get sm key 0 + v))
        | None => Raise TypeError
        end
      else Raise TypeError
    else Ok sm
  else Ok sm.

(** The body of the [while] loop at offset [i]:
<<
    name_idx = level[i + 3]
    self_val = level[i + 2]
    if ...
>> *)
Definition frame (names level : json) (i : nat) (sm : self_map)
  : result self_map :=
  name_idx <- py_getitem level (Z.of_nat i + 3) ;;
  self_val <- py_getitem level (Z.of_nat i + 2) ;;
  frame_body names name_idx self_val sm.

(** The length the loop condition reads, [0] where [len] raises. *)
Definition size_of (v : json) : nat :=
  match py_len v with
  | Ok n => n
  | Raise _ => 0%nat
  end.

(** The [while] loop over one level, from offset [i]:
<<
    while i + 3 < len(level):
        ...
        i += 4
>> *)
Equations? scan_level (names level : json) (i : nat) (sm : self_map)
  : result self_map by wf (size_of level - i)%nat lt :=
  scan_level names level i sm with Logic.inspect (py_len level) := {
    | exist _ (Raise e) _ => Raise e
    | exist _ (Ok len) Hlen with Logic.inspect (i + 3 <? len)%nat := {
        | exist _ false _ => Ok sm
        | exist _ true Hlt with frame names level i sm := {
            | Raise e => Raise e
            | Ok sm' => scan_level names level (i + 4) sm' } } }.
Proof.
  unfold size_of. rewrite Hlen.
  apply Nat.ltb_lt in Hlt. lia.
Qed.

(** The [for level in levels] loop over the levels still to visit. *)
Fixpoint scan_levels (names : json) (levels : list json) (sm : self_map)
  : result self_map :=
  match levels with
  | [] => Ok sm
  | level :: rest =>
      sm' <- scan_level names level 0 sm ;;
      scan_levels names rest sm'
  end.

(** ** Ranking *)

(** [sorted(items, key=lambda x: -x[1])]: Python's sort is stable, so the
    result is the one a stable insertion sort on the key gives. *)
Definition sort_key (item : json * Z) : Z := - snd item.

Fixpoint insert_sorted (x : json * Z) (l : list (json * Z)) : list (json * Z) :=
  match l with
  | [] => [x]
  | y :: rest =>
      if sort_key x <=? sort_key y then x :: y :: rest
      else y :: insert_sorted x rest
  end.

Definition sorted (items : list (json * Z)) : list (json * Z) :=
  fold_right insert_sorted [] items.

(** [l[:n]]: a negative [n] counts from the end. *)
Definition slice_to {A : Type} (l : list A) (n : Z) : list A :=
  if n <? 0 then firstn (List.length l - Z.to_nat (- n)) l
  else firstn (Z.to_nat n) l.

(** One element of the returned list. *)
Record entry : Type := mk_entry {
  function : json;
  self : Z;
  pct : spec_float
}.

(** [val / total] with the fetched [total]. *)
Definition py_truediv (val : Z) (total : json) : result spec_float :=
  match as_int total with
  | Some t => int_truediv val t
  | None => Raise TypeError
  end.

(** [round(val / total * 100, 1)] *)
Definition percent (val : Z) (total : json) : result spec_float :=
  ratio <- py_truediv val total ;;
  py_round1 (float_mul ratio (float_of_int 100)).

(** The list comprehension over [top]. *)
Fixpoint entries (total : json) (top : list (json * Z)) : result (list entry) :=
  match top with
  | [] => Ok []
  | (name, val) :: rest =>
      p <- percent val total ;;
      es <- entries total rest ;;
      Ok (mk_entry name val p :: es)
  end.

(** ** [pyro_top_functions] *)

(** The statements after the fetch, on the decoded payload [data]. *)
Definition top_functions_of (data : json) (n : Z) : result (list entry) :=
  fb <- dict_get data "flamebearer" (JObj []) ;;
  names <- dict_get fb "names" (JArr []) ;;
  levels <- dict_get fb "levels" (JArr []) ;;
  total <- dict_get fb "numTicks" (JInt 0) ;;
  if py_eq_zero total then Ok []
  else
    levels' <- py_iter levels ;;
    sm <- scan_levels names levels' [] ;;
    entries total (slice_to (sorted sm) n).

Section Render.

(** [pyro_render(base_url, profile_id, service)]: the decoded response,
    or [None] when the fetch failed. *)
Variable pyro_render : string -> string -> string -> option json.

Definition pyro_top_functions (base_url service profile_id : string) (n : Z)
  : result (list entry) :=
  match pyro_render base_url profile_id service with
  | None => Ok []
  | Some data => top_functions_of data n
  end.

End Render.

(** ** [prom_instant] *)

(** [s.split(":")[0]]: the text before the first colon. *)
Fixpoint before_colon (s : string) : string :=
  match s with
  | EmptyString => EmptyString
  | String c rest =>
      if Ascii.eqb c ":" then EmptyString else String c (before_colon rest)
  end.

(** [v.split(":")[0]]: only a [str] has the method. *)
Definition py_split_first (v : json) : result string :=
  match v with
  | JStr s => Ok (before_colon s)
  | _ => Raise AttributeError
  end.

(** The [out] dict of [prom_instant], with [out[k] = v]. *)
Definition instant_map : Type := list (string * spec_float).

Fixpoint im_set (out : instant_map) (k : string) (v : spec_float)
  : instant_map :=
  match out with
  | [] => [(k, v)]
  | (k', v') :: rest =>
      if String.eqb k k' then (k', v) :: rest else (k', v') :: im_set rest k v
  end.

Fixpoint im_get (out : instant_map) (k : string) : option spec_float :=
  match out with
  | [] => None
  | (k', v) :: rest => if String.eqb k k' then Some v else im_get rest k
  end.

Section Prometheus.

(** [float(s)] on a [str]: the parsed number, or [None] for the text that
    makes [float] raise [ValueError]. *)
Variable float_of_str : string -> option spec_float.

(** [float(v)] *)
Definition py_float (v : json) : result spec_float :=
  match v with
  | JStr s =>
      match float_of_str s with
      | Some f => Ok f
      | None => Raise ValueError
      end
  | JInt _ | JBool _ =>
      match as_int v with
      | Some z =>
          match float_of_int z with
          | S754_infinity _ => Raise OverflowError
          | f => Ok f
          end
      | None => Raise TypeError
      end
  | _ => Raise TypeError
  end.

(** [float(r["value"][1])] *)
Definition row_value (r : json) : result spec_float :=
  value <- dict_item r "value" ;;
  second <- py_getitem value 1 ;;
  py_float second.

(** The exceptions of [except (IndexError, ValueError, TypeError)]. *)
Definition caught (e : exn) : bool :=
  match e with
  | IndexError | ValueError | TypeError => true
  | _ => false
  end.

(** One turn of the [for r in ...] loop. *)
Definition instant_row (out : instant_map) (r : json) : result instant_map :=
  metric <- dict_item r "metric" ;;
  label <- dict_get metric "instance" (JStr "unknown") ;;
  inst <- py_split_first label ;;
  match row_value r with
  | Ok v => Ok (im_set out inst v)
  | Raise e => if caught e then Ok out else Raise e
  end.

Fixpoint instant_rows (out : instant_map) (rows : list json)
  : result instant_map :=
  match rows with
  | [] => Ok out
  | r :: rest =>
      out' <- instant_row out r ;;
      instant_rows out' rest
  end.

(** [_fetch_json(url)] for the query URL of [prom_query]. *)
Variable fetch_query : string -> string -> option json.

Definition prom_query (base_url expr : string) : result json :=
  match fetch_query base_url expr with
  | None => Ok (JArr [])
  | Some data =>
      d <- dict_get data "data" (JObj []) ;;
      dict_get d "result" (JArr [])
  end.

Definition prom_instant (base_url expr : string) : result instant_map :=
  result_rows <- prom_query base_url expr ;;
  rows <- py_iter result_rows ;;
  instant_rows [] rows.

End Prometheus.

(** ** The frame groups of a level *)

(** The complete groups of four of a level, in order: the group at offset
    [0], then at [4], and so on; what is left when fewer than four elements
    remain is dropped. *)
Fixpoint groups {A : Type} (l : list A) : list (A * A * A * A) :=
  match l with
  | a :: b :: c :: d :: rest => (a, b, c, d) :: groups rest
  | _ => []
  end.

(** The loop body on each group in turn: only the third field
    ([self_ticks]) and the fourth ([name_index]) are read. *)
Fixpoint fold_groups (names : json) (gs : list (json * json * json * json))
  (sm : self_map) : result self_map :=
  match gs with
  | [] => Ok sm
  | (_, _, self_val, name_idx) :: rest =>
      sm' <- frame_body names name_idx self_val sm ;;
      fold_groups names rest sm'
  end.

(** ** Payloads of the documented shape

    [names] a sequence of strings, [levels] a sequence of sequences of
    integers, [numTicks] an integer. *)

Definition level_json (l : list Z) : json := JArr (map JInt l).

(** [data] decodes to the flamebearer [(ns, lvls, t)]; other keys may sit
    beside the three. *)
Definition decodes_to (data : json) (ns : list string) (lvls : list (list Z))
  (t : Z) : Prop :=
  exists fields fb,
    data = JObj fields /\
    assoc "flamebearer" fields = Some (JObj fb) /\
    assoc "names" fb = Some (JArr (map JStr ns)) /\
    assoc "levels" fb = Some (JArr (map level_json lvls)) /\
    assoc "numTicks" fb = Some (JInt t).

(** Every complete group of every level, in level order, then in scan
    order within a level: [(offset, total_ticks, self_ticks, name_index)]. *)
Definition frames (lvls : list (list Z)) : list (Z * Z * Z * Z) :=
  flat_map groups lvls.

Definition self_ticks (g : Z * Z * Z * Z) : Z := snd (fst g).
Definition name_index (g : Z * Z * Z * Z) : Z := snd g.

(** The groups that pass the test of the loop body. *)
Definition contributes (ns : list string) (g : Z * Z * Z * Z) : bool :=
  (name_index g <? Z.of_nat (List.length ns)) && (0 <? self_ticks g).

Definition name_at (ns : list string) (idx : Z) : string :=
  nth (Z.to_nat idx) ns EmptyString.

(** The function name and the self-time of each contributing group, in
    the order the loops meet them. *)
Definition group_contributions (ns : list string) (gs : list (Z * Z * Z * Z))
  : list (string * Z) :=
  map (fun g => (name_at ns (name_index g), self_ticks g))
      (filter (contributes ns) gs).

Definition contributions (ns : list string) (lvls : list (list Z))
  : list (string * Z) :=
  group_contributions ns (frames lvls).

(** The sum of the contributions to [name]. *)
Definition total_for (name : string) (cs : list (string * Z)) : Z :=
  fold_right Z.add 0
    (map snd (filter (fun c => String.eqb name (fst c)) cs)).

(** The sum of a list of integers. *)
Definition sum (zs : list Z) : Z := fold_right Z.add 0 zs.

(** The group's name index points at [name]. *)
Definition references (ns : list string) (name : string) (g : Z * Z * Z * Z)
  : bool :=
  (0 <=? name_index g) && (name_index g <? Z.of_nat (List.length ns)) &&
  String.eqb name (name_at ns (name_index g)).

(** The sum of the [self_ticks] of every complete group, at every level,
    that references [name]. *)
Definition self_total (ns : list string) (lvls : list (list Z))
  (name : string) : Z :=
  sum (map self_ticks (filter (references ns name) (frames lvls))).

(** The accumulator after the contributions [cs], starting from [sm]. *)
Definition accumulate (cs : list (string * Z)) (sm : self_map) : self_map :=
  fold_left
    (fun sm c => sm_set sm (JStr (fst c)) (sm_get sm (JStr (fst c)) 0 + snd c))
    cs sm.

(** No name index is negative. *)
Definition indexes_from_zero (lvls : list (list Z)) : Prop :=
  Forall (fun g => 0 <= name_index g) (frames lvls).

(** No self-time is negative. *)
Definition self_ticks_from_zero (lvls : list (list Z)) : Prop :=
  Forall (fun g => 0 <= self_ticks g) (frames lvls).

(** The payload that holds a flamebearer and nothing else. *)
Definition flamebearer_payload (ns : list string) (lvls : list (list Z))
  (t : Z) : json :=
  JObj [("flamebearer",
         JObj [("names", JArr (map JStr ns));
               ("levels", JArr (map level_json lvls));
               ("numTicks", JInt t)])].

(** The double that holds the integer [z], by the Standard Library's
    conversion. *)
Definition B64_of_Z (z : Z) : spec_float := binary_normalize 53 1024 z 0 false.

(** The names in the order they are first met: a name already seen keeps
    its place. *)
Definition remember_key (seen : list string) (k : string) : list string :=
  if existsb (String.eqb k) seen then seen else seen ++ [k].

Definition first_seen_order (ks : list string) : list string :=
  fold_left remember_key ks [].

(** [x] stands before [y] in [l]. *)
Definition precedes {A : Type} (x y : A) (l : list A) : Prop :=
  exists l1 l2 l3, l = l1 ++ x :: l2 ++ y :: l3.

(** The name and the self-time of an entry: the pair it was built from. *)
Definition item_of (e : entry) : json * Z := (function e, self e).

(** [fb.get("numTicks", 0)], as [pyro_top_functions] reads it. *)
Definition num_ticks_of (data : json) : result json :=
  fb <- dict_get data "flamebearer" (JObj []) ;;
  dict_get fb "numTicks" (JInt 0).

(** Every total of the accumulator is positive. *)
Definition positive_totals (sm : self_map) : Prop :=
  Forall (fun kv => 0 < snd kv) sm.

(** ** Reading a double *)

(** The magnitude of [x] is at most the integer [C]. *)
Definition magnitude_le (x : spec_float) (C : Z) : Prop :=
  match x with
  | S754_zero _ => True
  | S754_finite _ m e => fst (frac_of m e) <= C * snd (frac_of m e)
  | _ => False
  end.

Definition has_sign (s : bool) (x : spec_float) : Prop :=
  match x with
  | S754_zero s' | S754_finite s' _ _ | S754_infinity s' => s' = s
  | S754_nan => False
  end.

Definition is_finite (x : spec_float) : bool :=
  match x with
  | S754_zero _ | S754_finite _ _ _ => true
  | _ => false
  end.

(** The exact value of a finite double. *)
Definition SF2Q (x : spec_float) : Q :=
  match x with
  | S754_finite s m e =>
      let '(a, b) := frac_of m e in
      Qmake (if s then - a else a) (Z.to_pos b)
  | _ => 0%Q
  end.

(** A flamebearer whose [numTicks] counts the samples of the whole profile:
    no name index and no self-time is negative, and the self-times of all
    the frames add up to [numTicks] at most. *)
Definition valid_flamebearer (lvls : list (list Z)) (t : Z) : Prop :=
  indexes_from_zero lvls /\
  self_ticks_from_zero lvls /\
  sum (map self_ticks (frames lvls)) <= t.

(** ** Tactics *)

(** Case analysis on every value a result is matched on, innermost
    first. *)
Ltac break_matches :=
  repeat (cbv beta iota;
          match goal with
          | |- context [match ?x with _ => _ end] =>
              lazymatch x with
              | context [match _ with _ => _ end] => fail
              | _ => destruct x
              end
          end).

(** ** What [pyro_top_functions] can raise *)

(** The exceptions that come out of [pyro_top_functions]: a payload or a
    flamebearer that is no dict ([AttributeError]), a value of the wrong
    type ([TypeError]), a name index below [-len(names)] ([IndexError]), a
    dict where a list is read ([KeyError]), a quotient too large for a
    double ([OverflowError]). *)
Definition may_escape (e : exn) : bool :=
  match e with
  | AttributeError | TypeError | IndexError | KeyError | OverflowError => true
  | ValueError | ZeroDivisionError => false
  end.

(** A payload with the three keys of the flamebearer. *)
Definition payload_of (names levels total : json) : json :=
  JObj [("flamebearer",
         JObj [("names", names); ("levels", levels); ("numTicks", total)])].

(** Two levels of one length that hold the same [self_ticks] and
    [name_index] fields: they may differ at the offsets [4k] and [4k + 1]. *)
Definition same_self_and_index (l l' : list json) : Prop :=
  List.length l = List.length l' /\
  forall i, (i mod 4 = 2 \/ i mod 4 = 3)%nat -> nth_error l i = nth_error l' i.

(** The entry the comprehension builds from one item of [top]; the
    percentage is a NaN where [round(val / total * 100, 1)] raises. *)
Definition entry_of (total : json) (item : json * Z) : entry :=
  mk_entry (fst item) (snd item)
    match percent (snd item) total with
    | Ok p => p
    | Raise _ => S754_nan
    end.

(** ** Instance names *)

(** [":" in s] *)
Definition has_colon (s : string) : bool :=
  existsb (Ascii.eqb ":") (list_ascii_of_string s).

(** No key of the mapping holds a colon. *)
Definition colon_free (out : instant_map) : Prop :=
  Forall (fun kv => has_colon (fst kv) = false) out.

(** The key a row is stored under, when its metric is a dict whose
    [instance] label, if any, is a string. *)
Definition row_key (r : json) : option string :=
  match dict_item r "metric" with
  | Ok metric =>
      match dict_get metric "instance" (JStr "unknown") with
      | Ok (JStr s) => Some (before_colon s)
      | _ => None
      end
  | Raise _ => None
  end.

(** A row of the shape Prometheus documents: a dict whose [metric] is a
    dict with a string [instance] label or none, and whose [value] is a
    list with a string, if anything, at index 1. *)
Definition well_shaped_row (r : json) : Prop :=
  exists fields metric vs,
    r = JObj fields /\
    assoc "metric" fields = Some (JObj metric) /\
    (assoc "instance" metric = None \/
     exists s, assoc "instance" metric = Some (JStr s)) /\
    assoc "value" fields = Some (JArr vs) /\
    (forall x, nth_error vs 1 = Some x -> exists s, x = JStr s).

(** Sample values: a [float] that reads ["0.25"] and ["0.5"], a result row
    and the response envelope of an instant query. *)
Definition sample_float (s : string) : option spec_float :=
  if String.eqb s "0.25" then Some (S754_finite false 1 (-2))
  else if String.eqb s "0.5" then Some (S754_finite false 1 (-1))
  else None.

Definition sample_row (instance : string) (value : list json) : json :=
  JObj [("metric", JObj [("instance", JStr instance)]);
        ("value", JArr value)].

Definition sample_response (rows : list json) : json :=
  JObj [("status", JStr "success");
        ("data", JObj [("resultType", JStr "vector"); ("result", JArr rows)])].

(** ** [prom_alerts] and [pyro_label_values] *)

(** [v == s] against a string. *)
Definition py_eq_str (v : json) (s : string) : bool :=
  match v with
  | JStr s' => String.eqb s' s
  | _ => false
  end.

(** The comprehension [[a for a in alerts if a.get("state") == "firing"]]. *)
Fixpoint firing (alerts : list json) : result (list json) :=
  match alerts with
  | [] => Ok []
  | a :: rest =>
      state <- dict_get a "state" JNull ;;
      kept <- firing rest ;;
      Ok (if py_eq_str state "firing" then a :: kept else kept)
  end.

Section Alerts.

(** [_fetch_json] on the alerts URL of [base_url]. *)
Variable fetch_alerts : string -> option json.

Definition prom_alerts (base_url : string) : result (list json) :=
  match fetch_alerts base_url with
  | None => Ok []
  | Some data =>
      d <- dict_get data "data" (JObj []) ;;
      alerts <- dict_get d "alerts" (JArr []) ;;
      items <- py_iter alerts ;;
      firing items
  end.

End Alerts.

Section Labels.

(** [_fetch_json] on the label request for [base_url] and [label]. *)
Variable fetch_labels : string -> string -> option json.

Definition pyro_label_values (base_url label : string) : result json :=
  match fetch_labels base_url label with
  | None => Ok (JArr [])
  | Some data => dict_get data "names" (JArr [])
  end.

End Labels.

Definition is_dict (v : json) : bool :=
  match v with
  | JObj _ => true
  | _ => false
  end.

(** The alert is a dict whose [state] is the string ["firing"]. *)
Definition state_is_firing (a : json) : bool :=
  match a with
  | JObj fields =>
      match assoc "state" fields with
      | Some (JStr s) => String.eqb s "firing"
      | _ => false
      end
  | _ => false
  end.

(** ** The service name tables *)

(** A [dict] from strings to strings, its items in insertion order. *)
Definition str_dict : Type := list (string * string).

Fixpoint sd_get (d : str_dict) (k : string) : option string :=
  match d with
  | [] => None
  | (k', v) :: rest => if String.eqb k k' then Some v else sd_get rest k
  end.

Fixpoint sd_set (d : str_dict) (k v : string) : str_dict :=
  match d with
  | [] => [(k, v)]
  | (k', v') :: rest =>
      if String.eqb k k' then (k', v) :: rest else (k', v') :: sd_set rest k v
  end.

Definition SVC_MAP : str_dict :=
  [("api-gateway", "bank-api-gateway");
   ("order-service", "bank-order-service");
   ("payment-service", "bank-payment-service");
   ("fraud-service", "bank-fraud-service");
   ("account-service", "bank-account-service");
   ("loan-service", "bank-loan-service");
   ("notification-service", "bank-notification-service");
   ("stream-service", "bank-stream-service")].

(** [{v: k for k, v in d.items()}] *)
Definition invert (d : str_dict) : str_dict :=
  fold_left (fun acc kv => sd_set acc (snd kv) (fst kv)) d [].

Definition REVERSE_MAP : str_dict := invert SVC_MAP.

Definition swap (kv : string * string) : string * string := (snd kv, fst kv).

(** No string occurs twice in [l]. *)
Fixpoint all_distinct (l : list string) : bool :=
  match l with
  | [] => true
  | x :: rest => negb (existsb (String.eqb x) rest) && all_distinct rest
  end.

(** ** The HTTP helper *)

Definition DEFAULT_TIMEOUT : Z := 10.

(** What the [try] block of [_fetch_json] comes to: the decoded response
    (a JSON [null] decodes to [None], the value that also reports a
    failure), or the exception raised on the way, by the [except] clause
    that names it; [RaisedOther] is an exception no clause names. *)
Inductive attempt : Type :=
| Parsed (data : json)
| RaisedHTTPError (code : Z)
| RaisedURLError
| RaisedDecodeOrOSError
| RaisedOther.

(** What a call that fetches comes to: it returns, or the exception of the
    request goes on to the caller. *)
Inductive outcome (A : Type) : Type :=
| Returned (r : A)
| Propagated.
Arguments Returned {A} r.
Arguments Propagated {A}.

(** [url.startswith(("http://", "https://"))] *)
Definition startswith_http (url : string) : bool :=
  String.prefix "http://" url || String.prefix "https://" url.

(** What a client does with the result of its fetch: the clients have no
    [try] of their own. *)
Definition after_fetch {A : Type} (fetched : outcome (option json))
  (client : option json -> result A) : outcome (result A) :=
  match fetched with
  | Returned r => Returned (client r)
  | Propagated => Propagated
  end.

Section Transport.

(** The request, the read and [json.loads]: URL, method, body, headers and
    timeout. *)
Variable urlopen_json :
  string -> string -> option string -> list (string * string) -> Z -> attempt.

Definition _fetch_json (url method : string) (body : option string)
  (headers : list (string * string)) (timeout : Z) : outcome (option json) :=
  if negb (startswith_http url) then Returned None
  else
    match urlopen_json url method body headers timeout with
    | Parsed JNull => Returned None
    | Parsed data => Returned (Some data)
    | RaisedHTTPError _ => Returned None
    | RaisedURLError => Returned None
    | RaisedDecodeOrOSError => Returned None
    | RaisedOther => Propagated
    end.

(** [urllib.parse.quote] and [json.dumps]. *)
Variable quote : string -> string.
Variable json_dumps : json -> string.

(** ["{}/api/v1/query?query={}".format(base_url, quote(expr))] *)
Definition query_url (base_url expr : string) : string :=
  (base_url ++ "/api/v1/query?query=" ++ quote expr)%string.

(** ["{}/api/v1/alerts".format(base_url)] *)
Definition alerts_url (base_url : string) : string :=
  (base_url ++ "/api/v1/alerts")%string.

(** ["{}/querier.v1.QuerierService/LabelValues".format(base_url)] *)
Definition labels_url (base_url : string) : string :=
  (base_url ++ "/querier.v1.QuerierService/LabelValues")%string.

(** The double quote of the render query. *)
Definition dquote : string := String "034" EmptyString.

(** The query [profile_id{service_name="service"}] and the URL of
    [pyro_render]. *)
Definition render_query (profile_id service : string) : string :=
  (profile_id ++ "{service_name=" ++ dquote ++ service ++ dquote ++ "}")%string.

Definition render_url (base_url profile_id service time_range : string)
  : string :=
  (base_url ++ "/pyroscope/render?query=" ++
   quote (render_query profile_id service) ++
   "&from=now-" ++ time_range ++ "&until=now&format=json")%string.

Definition pyro_render (base_url profile_id service time_range : string)
  : outcome (option json) :=
  _fetch_json (render_url base_url profile_id service time_range)
    "GET" None [] DEFAULT_TIMEOUT.

(** The clients with their fetch. *)
Definition prom_query_http (base_url expr : string) : outcome (result json) :=
  after_fetch
    (_fetch_json (query_url base_url expr) "GET" None [] DEFAULT_TIMEOUT)
    (fun r => prom_query (fun _ _ => r) base_url expr).

Definition prom_instant_http (float_of_str : string -> option spec_float)
  (base_url expr : string) : outcome (result instant_map) :=
  after_fetch
    (_fetch_json (query_url base_url expr) "GET" None [] DEFAULT_TIMEOUT)
    (fun r => prom_instant float_of_str (fun _ _ => r) base_url expr).

Definition prom_alerts_http (base_url : string)
  : outcome (result (list json)) :=
  after_fetch
    (_fetch_json (alerts_url base_url) "GET" None [] DEFAULT_TIMEOUT)
    (fun r => prom_alerts (fun _ => r) base_url).

Definition pyro_label_values_http (base_url label : string)
  : outcome (result json) :=
  after_fetch
    (_fetch_json (labels_url base_url) "POST"
       (Some (json_dumps (JObj [("name", JStr label)])))
       [("Content-Type", "application/json")] DEFAULT_TIMEOUT)
    (fun r => pyro_label_values (fun _ _ => r) base_url label).

Definition pyro_top_functions_http (base_url service profile_id : string)
  (n : Z) : outcome (result (list entry)) :=
  after_fetch (pyro_render base_url profile_id service "1h")
    (fun r => pyro_top_functions (fun _ _ _ => r) base_url service profile_id n).

End Transport.

(** The request failed with an exception that [_fetch_json] catches, or
    the response was the JSON [null]. *)
Definition gives_no_data (a : attempt) : bool :=
  match a with
  | RaisedHTTPError _ | RaisedURLError | RaisedDecodeOrOSError => true
  | Parsed JNull => true
  | Parsed _ | RaisedOther => false
  end.

(** * Properties *)

(** ** The [while] loop *)

(** One turn of the loop. *)
Lemma scan_level_step names level i sm :
  scan_level names level i sm =
  match py_len level with
  | Raise e => Raise e
  | Ok len =>
      if (i + 3 <? len)%nat then
        match frame names level i sm with
        | Raise e => Raise e
        | Ok sm' => scan_level names level (i + 4) sm'
        end
      else Ok sm
  end.
Proof.
  rewrite scan_level_equation_1.
  destruct (Logic.inspect (py_len level)) as [[len|e] Hlen];
    (etransitivity; [| rewrite Hlen; reflexivity]);
    simp scan_level; [|reflexivity].
  destruct (Logic.inspect (i + 3 <? len)%nat) as [[|] Hlt];
    (etransitivity; [| rewrite Hlt; reflexivity]);
    simp scan_level; [|reflexivity].
  destruct (frame names level i sm); simp scan_level; reflexivity.
Qed.

Lemma seq_item_nth (items : list json) (i : nat) (v : json) :
  nth_error items i = Some v -> seq_item items (Z.of_nat i) = Ok v.
Proof.
  intros H. unfold seq_item.
  assert (i < List.length items)%nat as Hi
    by (apply nth_error_Some; congruence).
  replace (Z.of_nat i <? 0) with false by (symmetry; apply Z.ltb_ge; lia).
  replace (0 <=? Z.of_nat i) with true by (symmetry; apply Z.leb_le; lia).
  replace (Z.of_nat i <? Z.of_nat (List.length items)) with true
    by (symmetry; apply Z.ltb_lt; lia).
  simpl. rewrite Nat2Z.id, H. reflexivity.
Qed.

Lemma groups_short {A : Type} (l : list A) :
  (List.length l < 4)%nat -> groups l = [].
Proof.
  destruct l as [|a [|b [|c [|d rest]]]]; simpl; intros; try reflexivity; lia.
Qed.

Lemma skipn_group {A : Type} (l : list A) (i : nat) :
  (i + 3 < List.length l)%nat ->
  exists a b c d,
    skipn i l = a :: b :: c :: d :: skipn (i + 4) l /\
    nth_error l i = Some a /\ nth_error l (i + 1) = Some b /\
    nth_error l (i + 2) = Some c /\ nth_error l (i + 3) = Some d.
Proof.
  revert l. induction i as [|i IH]; intros l Hl.
  - destruct l as [|a [|b [|c [|d rest]]]]; simpl in Hl; try lia.
    exists a, b, c, d. repeat split; reflexivity.
  - destruct l as [|x l]; simpl in Hl; [lia|].
    destruct (IH l) as (a & b & c & d & H & Ha & Hb & Hc & Hd); [lia|].
    exists a, b, c, d. simpl. auto.
Qed.

(** The index loop visits exactly the complete groups from offset [i] on. *)
Lemma scan_level_from names items i sm :
  scan_level names (JArr items) i sm =
  fold_groups names (groups (skipn i items)) sm.
Proof.
  remember (List.length items - i)%nat as k eqn:Hk.
  revert i sm Hk. induction k as [k IH] using lt_wf_ind. intros i sm Hk.
  rewrite scan_level_step. simpl py_len. cbv beta iota.
  destruct (i + 3 <? List.length items)%nat eqn:Hlt.
  - apply Nat.ltb_lt in Hlt.
    destruct (skipn_group items i Hlt) as (a & b & c & d & Hs & _ & _ & Hc & Hd).
    rewrite Hs. simpl. unfold frame. simpl py_getitem.
    replace (Z.of_nat i + 3) with (Z.of_nat (i + 3)) by lia.
    replace (Z.of_nat i + 2) with (Z.of_nat (i + 2)) by lia.
    rewrite (seq_item_nth _ _ _ Hd), (seq_item_nth _ _ _ Hc). simpl.
    destruct (frame_body names d c sm) as [sm'|e]; simpl; [|reflexivity].
    apply (IH (List.length items - (i + 4))%nat); lia.
  - apply Nat.ltb_ge in Hlt.
    rewrite groups_short; [reflexivity|].
    rewrite length_skipn. lia.
Qed.

Lemma groups_app {A : Type} (k : nat) (l tail : list A) :
  List.length l = (4 * k)%nat -> groups (l ++ tail) = groups l ++ groups tail.
Proof.
  revert l. induction k as [|k IH]; intros l Hl.
  - destruct l; [reflexivity | simpl in Hl; lia].
  - destruct l as [|a [|b [|c [|d rest]]]]; simpl in Hl; try lia.
    simpl. rewrite IH by lia. reflexivity.
Qed.

Lemma nth_error_lt {A : Type} (l : list A) (n : nat) (x : A) :
  nth_error l n = Some x -> (n < List.length l)%nat.
Proof. intros H. apply nth_error_Some. congruence. Qed.

(** The [k]-th group holds the elements at offsets [4k] to [4k + 3]. *)
Lemma groups_nth {A : Type} (l : list A) (k : nat) (a b c d : A) :
  nth_error (groups l) k = Some (a, b, c, d) <->
  nth_error l (4 * k) = Some a /\ nth_error l (4 * k + 1) = Some b /\
  nth_error l (4 * k + 2) = Some c /\ nth_error l (4 * k + 3) = Some d.
Proof.
  revert l. induction k as [|k IH]; intros l.
  - destruct l as [|a' [|b' [|c' [|d' rest]]]]; simpl;
      try (split; [discriminate | intros (? & ? & ? & ?); discriminate]).
    split.
    + intros H. inversion H. auto.
    + intros (Ha & Hb & Hc & Hd). congruence.
  - destruct (Nat.lt_ge_cases (List.length l) 4) as [Hshort|Hlong].
    + rewrite groups_short by assumption. split; [discriminate|].
      intros (_ & _ & _ & Hd). apply nth_error_lt in Hd. lia.
    + destruct l as [|a' [|b' [|c' [|d' rest]]]]; simpl in Hlong; try lia.
      replace (4 * S k)%nat with (S (S (S (S (4 * k))))) by lia.
      change (groups (a' :: b' :: c' :: d' :: rest))
        with ((a', b', c', d') :: groups rest).
      simpl. apply IH.
Qed.

(** ** The loops on a payload of the documented shape *)

Lemma groups_map {A B : Type} (f : A -> B) (l : list A) :
  groups (map f l) =
  map (fun g => (f (fst (fst (fst g))), f (snd (fst (fst g))),
                 f (snd (fst g)), f (snd g))) (groups l).
Proof.
  remember (List.length l) as n eqn:Hn. revert l Hn.
  induction n as [n IH] using lt_wf_ind. intros l Hn.
  destruct l as [|a [|b [|c [|d rest]]]]; try reflexivity.
  simpl. f_equal. apply (IH (List.length rest)); [simpl in Hn; lia | reflexivity].
Qed.

Lemma names_item (ns : list string) (idx : Z) :
  0 <= idx < Z.of_nat (List.length ns) ->
  py_subscript (JArr (map JStr ns)) (JInt idx) = Ok (JStr (name_at ns idx)).
Proof.
  intros Hidx. unfold py_subscript. simpl.
  rewrite <- (Z2Nat.id idx) at 1 by lia.
  apply seq_item_nth.
  rewrite nth_error_map.
  rewrite (nth_error_nth' ns EmptyString) by lia.
  reflexivity.
Qed.

(** The loop body on a group of integers. *)
Lemma frame_body_typed (ns : list string) (g : Z * Z * Z * Z) (sm : self_map) :
  0 <= name_index g ->
  frame_body (JArr (map JStr ns)) (JInt (name_index g)) (JInt (self_ticks g)) sm =
  Ok (if contributes ns g
      then accumulate [(name_at ns (name_index g), self_ticks g)] sm
      else sm).
Proof.
  intros Hidx. unfold frame_body, contributes. simpl.
  rewrite length_map.
  destruct (name_index g <? Z.of_nat (List.length ns)) eqn:Hlt; simpl;
    [|reflexivity].
  destruct (0 <? self_ticks g) eqn:Hpos; simpl; [|reflexivity].
  apply Z.ltb_lt in Hlt.
  rewrite names_item by lia. reflexivity.
Qed.

Lemma accumulate_app (cs1 cs2 : list (string * Z)) (sm : self_map) :
  accumulate (cs1 ++ cs2) sm = accumulate cs2 (accumulate cs1 sm).
Proof. unfold accumulate. apply fold_left_app. Qed.

Lemma fold_groups_typed (ns : list string) (gs : list (Z * Z * Z * Z))
  (sm : self_map) :
  Forall (fun g => 0 <= name_index g) gs ->
  fold_groups (JArr (map JStr ns))
    (map (fun g => (JInt (fst (fst (fst g))), JInt (snd (fst (fst g))),
                    JInt (snd (fst g)), JInt (snd g))) gs) sm =
  Ok (accumulate (group_contributions ns gs) sm).
Proof.
  intros Hgs. revert sm. induction Hgs as [|g gs Hg _ IH]; intros sm.
  - reflexivity.
  - cbn [map fold_groups].
    change (JInt (snd g)) with (JInt (name_index g)).
    change (JInt (snd (fst g))) with (JInt (self_ticks g)).
    rewrite frame_body_typed by assumption. cbn [bind].
    rewrite IH. unfold group_contributions. cbn [filter].
    destruct (contributes ns g); reflexivity.
Qed.

(** The two loops leave the accumulator of the contributions. *)
Lemma scan_levels_typed (ns : list string) (lvls : list (list Z))
  (sm : self_map) :
  indexes_from_zero lvls ->
  scan_levels (JArr (map JStr ns)) (map level_json lvls) sm =
  Ok (accumulate (contributions ns lvls) sm).
Proof.
  unfold indexes_from_zero, contributions, group_contributions, frames.
  revert sm. induction lvls as [|l lvls IH]; intros sm Hv.
  - reflexivity.
  - simpl in Hv. apply Forall_app in Hv. destruct Hv as [Hl Hrest].
    cbn [map scan_levels]. unfold level_json at 1.
    rewrite scan_level_from. cbn [skipn].
    rewrite groups_map, fold_groups_typed by assumption. cbn [bind].
    rewrite IH by assumption.
    cbn [flat_map]. rewrite filter_app, map_app, accumulate_app.
    reflexivity.
Qed.

(** ** The accumulator *)

Lemma key_eqb_str (k : string) (k' : json) :
  key_eqb (JStr k) k' = true -> k' = JStr k.
Proof.
  destruct k'; simpl; try discriminate.
  intros H. apply String.eqb_eq in H. congruence.
Qed.

Lemma sm_get_set_str (sm : self_map) (k k' : string) (v d : Z) :
  sm_get (sm_set sm (JStr k) v) (JStr k') d =
  if String.eqb k' k then v else sm_get sm (JStr k') d.
Proof.
  induction sm as [|[k1 v1] rest IH].
  - simpl. destruct (String.eqb k' k); reflexivity.
  - cbn [sm_set sm_get].
    destruct (key_eqb (JStr k) k1) eqn:E1.
    + apply key_eqb_str in E1. subst k1. cbn [sm_get]. simpl key_eqb.
      destruct (String.eqb k' k); reflexivity.
    + cbn [sm_get]. rewrite IH.
      destruct (String.eqb k' k) eqn:E2; [|reflexivity].
      apply String.eqb_eq in E2. subst k'. rewrite E1. reflexivity.
Qed.

(** The accumulator holds, for each name, the sum of its contributions. *)
Lemma sm_get_accumulate (cs : list (string * Z)) (sm : self_map) (name : string) :
  sm_get (accumulate cs sm) (JStr name) 0 =
  sm_get sm (JStr name) 0 + total_for name cs.
Proof.
  revert sm. induction cs as [|[k v] cs IH]; intros sm.
  - unfold total_for. simpl. lia.
  - change (accumulate ((k, v) :: cs) sm)
      with (accumulate cs (sm_set sm (JStr k) (sm_get sm (JStr k) 0 + v))).
    rewrite IH, sm_get_set_str. unfold total_for. cbn [filter fst].
    destruct (String.eqb name k) eqn:E.
    + apply String.eqb_eq in E. subst k. simpl. lia.
    + reflexivity.
Qed.

Lemma keys_sm_set (sm : self_map) (seen : list string) (k : string) (v : Z) :
  map fst sm = map JStr seen ->
  map fst (sm_set sm (JStr k) v) = map JStr (remember_key seen k).
Proof.
  unfold remember_key. revert seen.
  induction sm as [|[k1 v1] rest IH]; intros seen Hk.
  - destruct seen; [reflexivity | discriminate].
  - destruct seen as [|s seen]; [discriminate|].
    simpl in Hk. injection Hk as -> Hrest.
    cbn [sm_set existsb]. simpl key_eqb.
    destruct (String.eqb k s) eqn:E; simpl.
    + rewrite Hrest. reflexivity.
    + rewrite (IH seen Hrest).
      destruct (existsb (String.eqb k) seen); reflexivity.
Qed.

Lemma keys_accumulate (cs : list (string * Z)) (sm : self_map)
  (seen : list string) :
  map fst sm = map JStr seen ->
  map fst (accumulate cs sm) = map JStr (fold_left remember_key (map fst cs) seen).
Proof.
  revert sm seen. induction cs as [|[k v] cs IH]; intros sm seen Hk.
  - exact Hk.
  - simpl. apply IH. apply keys_sm_set. exact Hk.
Qed.

(** The keys of the accumulator are the names in first-met order. *)
Lemma keys_accumulate_nil (cs : list (string * Z)) :
  map fst (accumulate cs []) = map JStr (first_seen_order (map fst cs)).
Proof. apply keys_accumulate. reflexivity. Qed.

Lemma existsb_eqb_In (k : string) (l : list string) :
  existsb (String.eqb k) l = true <-> In k l.
Proof.
  rewrite existsb_exists. split.
  - intros (x & Hx & E). apply String.eqb_eq in E. congruence.
  - intros H. exists k. split; [assumption | apply String.eqb_refl].
Qed.

Lemma remember_key_NoDup (seen : list string) (k : string) :
  NoDup seen -> NoDup (remember_key seen k).
Proof.
  intros Hnd. unfold remember_key.
  destruct (existsb (String.eqb k) seen) eqn:E; [assumption|].
  apply NoDup_app; [assumption | repeat constructor; intros [] | ].
  intros x Hx [<-|[]].
  apply existsb_eqb_In in Hx. congruence.
Qed.

Lemma fold_remember_NoDup (ks seen : list string) :
  NoDup seen -> NoDup (fold_left remember_key ks seen).
Proof.
  revert seen. induction ks as [|k ks IH]; intros seen Hnd; simpl.
  - assumption.
  - apply IH, remember_key_NoDup, Hnd.
Qed.

Lemma first_seen_order_NoDup (ks : list string) : NoDup (first_seen_order ks).
Proof. apply fold_remember_NoDup. constructor. Qed.

Lemma JStr_inj_map (l : list string) : NoDup l -> NoDup (map JStr l).
Proof.
  intros H. apply Finite.Injective_map_NoDup; [|assumption].
  intros a b E. congruence.
Qed.

(** Each function holds one key of the accumulator. *)
Lemma accumulate_keys_NoDup (cs : list (string * Z)) :
  NoDup (map fst (accumulate cs [])).
Proof.
  rewrite keys_accumulate_nil. apply JStr_inj_map, first_seen_order_NoDup.
Qed.

Lemma sm_get_In (sm : self_map) (name : string) (v d : Z) :
  NoDup (map fst sm) -> In (JStr name, v) sm -> sm_get sm (JStr name) d = v.
Proof.
  induction sm as [|[k1 v1] rest IH]; intros Hnd Hin; [destruct Hin|].
  simpl in Hnd. apply NoDup_cons_iff in Hnd. destruct Hnd as [Hnot Hnd].
  cbn [sm_get]. destruct Hin as [E|Hin].
  - injection E as -> ->. simpl. rewrite String.eqb_refl. reflexivity.
  - destruct (key_eqb (JStr name) k1) eqn:E.
    + apply key_eqb_str in E. subst k1. exfalso. apply Hnot.
      change (JStr name) with (fst (JStr name, v)). apply in_map, Hin.
    + apply IH; assumption.
Qed.

(** An item of the accumulator is a function name with the sum of the
    self-times that reference it. *)
Lemma accumulate_In (cs : list (string * Z)) (k : json) (v : Z) :
  In (k, v) (accumulate cs []) ->
  exists name, k = JStr name /\ v = total_for name cs /\ In name (map fst cs).
Proof.
  intros Hin.
  assert (In k (map JStr (first_seen_order (map fst cs)))) as Hk.
  { rewrite <- keys_accumulate_nil.
    change k with (fst (k, v)). apply in_map, Hin. }
  apply in_map_iff in Hk. destruct Hk as (name & <- & Hname).
  exists name. split; [reflexivity|]. split.
  - rewrite <- (sm_get_In _ _ _ 0 (accumulate_keys_NoDup cs) Hin).
    rewrite sm_get_accumulate. reflexivity.
  - clear Hin. unfold first_seen_order in Hname.
    assert (forall ks seen, In name (fold_left remember_key ks seen) ->
                            In name seen \/ In name ks) as Hgen.
    { induction ks as [|a ks IH]; intros seen H; simpl in H.
      - left. exact H.
      - apply IH in H. destruct H as [H|H]; [|right; right; exact H].
        unfold remember_key in H.
        destruct (existsb (String.eqb a) seen); [left; exact H|].
        apply in_app_or in H. destruct H as [H|[<-|[]]].
        + left. exact H.
        + right. left. reflexivity. }
    apply Hgen in Hname. destruct Hname as [[]|H]. exact H.
Qed.

(** ** Sorting and slicing *)

Lemma insert_sorted_perm (x : json * Z) (l : list (json * Z)) :
  Permutation (insert_sorted x l) (x :: l).
Proof.
  induction l as [|y rest IH]; simpl.
  - apply Permutation_refl.
  - destruct (sort_key x <=? sort_key y).
    + apply Permutation_refl.
    + eapply perm_trans; [apply perm_skip, IH | apply perm_swap].
Qed.

Lemma sorted_perm (l : list (json * Z)) : Permutation (sorted l) l.
Proof.
  induction l as [|x rest IH]; simpl.
  - apply perm_nil.
  - eapply perm_trans; [apply insert_sorted_perm | apply perm_skip, IH].
Qed.

Lemma insert_sorted_ranked (x : json * Z) (l : list (json * Z)) :
  StronglySorted (fun a b => snd b <= snd a) l ->
  StronglySorted (fun a b => snd b <= snd a) (insert_sorted x l).
Proof.
  induction 1 as [|y rest Hrest IH Hy]; simpl.
  - repeat constructor.
  - unfold sort_key. destruct (- snd x <=? - snd y) eqn:E.
    + apply Z.leb_le in E. constructor; [constructor; assumption|].
      constructor; [lia|].
      eapply Forall_impl; [|exact Hy]. simpl. intros a Ha. lia.
    + apply Z.leb_gt in E. constructor; [exact IH|].
      eapply Permutation_Forall;
        [apply Permutation_sym, insert_sorted_perm|].
      constructor; [lia | exact Hy].
Qed.

(** [sorted] orders by self-time, largest first. *)
Lemma sorted_ranked (l : list (json * Z)) :
  StronglySorted (fun a b => snd b <= snd a) (sorted l).
Proof.
  induction l as [|x rest IH]; simpl.
  - constructor.
  - apply insert_sorted_ranked, IH.
Qed.

Lemma filter_insert_sorted (v : Z) (x : json * Z) (l : list (json * Z)) :
  filter (fun a => snd a =? v) (insert_sorted x l) =
  filter (fun a => snd a =? v) (x :: l).
Proof.
  induction l as [|y rest IH]; [reflexivity|].
  cbn [insert_sorted]. unfold sort_key.
  destruct (- snd x <=? - snd y) eqn:E; [reflexivity|].
  apply Z.leb_gt in E. cbn [filter] in *. rewrite IH.
  destruct (snd x =? v) eqn:Ex; [|reflexivity].
  apply Z.eqb_eq in Ex.
  replace (snd y =? v) with false by (symmetry; apply Z.eqb_neq; lia).
  reflexivity.
Qed.

(** [sorted] is stable: the items of one self-time keep their order. *)
Lemma sorted_stable (v : Z) (l : list (json * Z)) :
  filter (fun a => snd a =? v) (sorted l) = filter (fun a => snd a =? v) l.
Proof.
  induction l as [|x rest IH]; [reflexivity|].
  cbn [sorted fold_right]. fold (sorted rest).
  rewrite filter_insert_sorted. cbn [filter]. rewrite IH. reflexivity.
Qed.

Lemma slice_to_firstn {A : Type} (l : list A) (n : Z) :
  exists m, slice_to l n = firstn m l.
Proof. unfold slice_to. destruct (n <? 0); eauto. Qed.

Lemma precedes_firstn {A : Type} (x y : A) (m : nat) (l : list A) :
  precedes x y (firstn m l) -> precedes x y l.
Proof.
  intros (l1 & l2 & l3 & H).
  exists l1, l2, (l3 ++ skipn m l).
  rewrite <- (firstn_skipn m l) at 1. rewrite H.
  rewrite <- !app_assoc. simpl. rewrite <- !app_assoc. reflexivity.
Qed.

Lemma precedes_filter {A : Type} (f : A -> bool) (x y : A) (l : list A) :
  f x = true -> f y = true -> precedes x y l -> precedes x y (filter f l).
Proof.
  intros Hx Hy (l1 & l2 & l3 & ->).
  exists (filter f l1), (filter f l2), (filter f l3).
  rewrite filter_app. cbn [filter]. rewrite Hx, filter_app. cbn [filter].
  rewrite Hy. reflexivity.
Qed.

Lemma precedes_cons {A : Type} (a x y : A) (l : list A) :
  precedes x y l -> precedes x y (a :: l).
Proof. intros (l1 & l2 & l3 & ->). exists (a :: l1), l2, l3. reflexivity. Qed.

Lemma precedes_filter_inv {A : Type} (f : A -> bool) (x y : A) (l : list A) :
  precedes x y (filter f l) -> precedes x y l.
Proof.
  induction l as [|a l IH]; intros (l1 & l2 & l3 & H).
  - destruct l1; discriminate.
  - cbn [filter] in H. destruct (f a).
    + destruct l1 as [|b l1]; simpl in H; injection H as -> H.
      * assert (In y (filter f l)) as Hy
          by (rewrite H; apply in_or_app; right; left; reflexivity).
        apply filter_In in Hy. destruct Hy as [Hy _].
        apply in_split in Hy. destruct Hy as (m1 & m2 & ->).
        exists [], m1, m2. reflexivity.
      * apply precedes_cons, IH. exists l1, l2, l3. exact H.
    + apply precedes_cons, IH. exists l1, l2, l3. exact H.
Qed.

Lemma precedes_map {A B : Type} (f : A -> B) (x y : A) (l : list A) :
  precedes x y l -> precedes (f x) (f y) (map f l).
Proof.
  intros (l1 & l2 & l3 & ->).
  exists (map f l1), (map f l2), (map f l3).
  rewrite map_app. cbn [map]. rewrite map_app. reflexivity.
Qed.

Lemma precedes_map_JStr (a b : string) (l : list string) :
  precedes (JStr a) (JStr b) (map JStr l) -> precedes a b l.
Proof.
  intros (l1 & l2 & l3 & H).
  apply map_eq_app in H. destruct H as (m1 & r1 & -> & _ & H).
  apply map_eq_cons in H. destruct H as (a' & r2 & -> & Ea & H).
  apply map_eq_app in H. destruct H as (m2 & r3 & -> & _ & H).
  apply map_eq_cons in H. destruct H as (b' & m3 & -> & Eb & _).
  injection Ea as ->. injection Eb as ->.
  exists m1, m2, m3. reflexivity.
Qed.

Lemma precedes_In {A : Type} (x y : A) (l : list A) :
  precedes x y l -> In x l /\ In y l.
Proof.
  intros (l1 & l2 & l3 & ->). split.
  - apply in_or_app. right. left. reflexivity.
  - apply in_or_app. right. right. apply in_or_app. right. left. reflexivity.
Qed.

(** Two items of one self-time stand in the ranking as they stood in the
    accumulator. *)
Lemma ranking_keeps_ties (x y : json * Z) (sm : list (json * Z)) (n : Z) :
  snd x = snd y ->
  precedes x y (slice_to (sorted sm) n) -> precedes x y sm.
Proof.
  intros Heq H.
  destruct (slice_to_firstn (sorted sm) n) as [m Hm]. rewrite Hm in H.
  apply precedes_firstn in H.
  apply (precedes_filter_inv (fun a => snd a =? snd x)).
  rewrite <- sorted_stable.
  apply precedes_filter; [apply Z.eqb_refl | apply Z.eqb_eq; congruence | exact H].
Qed.

(** ** The returned entries *)

Lemma entries_items (total : json) (top : list (json * Z)) (es : list entry) :
  entries total top = Ok es -> map item_of es = top.
Proof.
  revert es. induction top as [|[name val] rest IH]; intros es H.
  - injection H as <-. reflexivity.
  - cbn [entries] in H.
    destruct (percent val total) as [p|]; [|discriminate]. cbn [bind] in H.
    destruct (entries total rest) as [es'|]; [|discriminate]. cbn [bind] in H.
    injection H as <-. cbn [map]. rewrite (IH es' eq_refl). reflexivity.
Qed.

Lemma entries_percent (total : json) (top : list (json * Z)) (es : list entry) :
  entries total top = Ok es ->
  Forall (fun e => percent (self e) total = Ok (pct e)) es.
Proof.
  revert es. induction top as [|[name val] rest IH]; intros es H.
  - injection H as <-. constructor.
  - cbn [entries] in H.
    destruct (percent val total) as [p|] eqn:Ep; [|discriminate].
    cbn [bind] in H.
    destruct (entries total rest) as [es'|]; [|discriminate]. cbn [bind] in H.
    injection H as <-. constructor; [exact Ep | apply IH; reflexivity].
Qed.

(** The comprehension returns when each percentage does. *)
Lemma entries_returns (total : json) (top : list (json * Z)) :
  Forall (fun kv => exists p, percent (snd kv) total = Ok p) top ->
  exists es, entries total top = Ok es.
Proof.
  induction 1 as [|[name val] rest (p & Hp) _ (es & IH)].
  - exists []. reflexivity.
  - exists (mk_entry name val p :: es). cbn [entries].
    simpl in Hp. rewrite Hp, IH. reflexivity.
Qed.

(** ** [pyro_top_functions] on a payload of the documented shape *)

Lemma flamebearer_payload_decodes (ns : list string) (lvls : list (list Z))
  (t : Z) :
  decodes_to (flamebearer_payload ns lvls t) ns lvls t.
Proof. unfold decodes_to, flamebearer_payload. eexists _, _. repeat split. Qed.

(** The statements after the fetch come down to the ranking of the
    accumulated contributions. *)
Lemma top_functions_decoded (data : json) (ns : list string)
  (lvls : list (list Z)) (t n : Z) :
  decodes_to data ns lvls t -> indexes_from_zero lvls ->
  top_functions_of data n =
  if t =? 0 then Ok []
  else entries (JInt t)
         (slice_to (sorted (accumulate (contributions ns lvls) [])) n).
Proof.
  intros (fields & fb & -> & Hfb & Hn & Hl & Ht) Hidx.
  unfold top_functions_of. cbn [dict_get bind].
  rewrite Hfb. cbn [bind dict_get]. rewrite Hn, Hl, Ht. cbn [bind].
  unfold py_eq_zero. cbn [as_int].
  destruct (t =? 0); [reflexivity|].
  cbn [py_iter bind]. rewrite scan_levels_typed by assumption.
  reflexivity.
Qed.

Lemma total_for_references (ns : list string) (name : string)
  (gs : list (Z * Z * Z * Z)) :
  Forall (fun g => 0 <= name_index g) gs ->
  Forall (fun g => 0 <= self_ticks g) gs ->
  total_for name (group_contributions ns gs) =
  sum (map self_ticks (filter (references ns name) gs)).
Proof.
  unfold total_for, group_contributions, sum.
  induction gs as [|g gs IH]; intros Hidx Hself; [reflexivity|].
  inversion Hidx as [|? ? Hi Hidx']. inversion Hself as [|? ? Hs Hself']. subst.
  specialize (IH Hidx' Hself').
  cbn [filter]. unfold references at 1, contributes at 1.
  replace (0 <=? name_index g) with true by (symmetry; apply Z.leb_le; lia).
  cbn [andb].
  destruct (name_index g <? Z.of_nat (List.length ns)); cbn [andb];
    [|exact IH].
  destruct (0 <? self_ticks g) eqn:Hpos; cbn [map filter fst].
  - destruct (String.eqb name (name_at ns (name_index g)));
      cbn [map fold_right snd]; rewrite IH; reflexivity.
  - apply Z.ltb_ge in Hpos.
    destruct (String.eqb name (name_at ns (name_index g)));
      cbn [map fold_right]; rewrite IH; [lia | reflexivity].
Qed.

Lemma slice_to_In {A : Type} (x : A) (l : list A) (n : Z) :
  In x (slice_to l n) -> In x l.
Proof.
  destruct (slice_to_firstn l n) as [m ->]. revert l.
  induction m as [|m IH]; intros [|a l] H; simpl in H; try contradiction.
  destruct H as [<-|H]; [left; reflexivity | right; apply IH, H].
Qed.

Lemma firstn_NoDup {A : Type} (m : nat) (l : list A) :
  NoDup l -> NoDup (firstn m l).
Proof.
  intros H. rewrite <- (firstn_skipn m l) in H.
  apply NoDup_app_remove_r in H. exact H.
Qed.

(** The ranking holds each key of the accumulator once at most. *)
Lemma ranking_keys_NoDup (sm : list (json * Z)) (n : Z) :
  NoDup (map fst sm) -> NoDup (map fst (slice_to (sorted sm) n)).
Proof.
  intros H. destruct (slice_to_firstn (sorted sm) n) as [m ->].
  rewrite <- firstn_map. apply firstn_NoDup.
  eapply Permutation_NoDup; [|exact H].
  apply Permutation_map, Permutation_sym, sorted_perm.
Qed.

Lemma ranking_In (x : json * Z) (sm : list (json * Z)) (n : Z) :
  In x (slice_to (sorted sm) n) -> In x sm.
Proof.
  intros H. apply slice_to_In in H.
  eapply Permutation_in; [apply sorted_perm | exact H].
Qed.

(** C1: [pyro_top_functions] aggregates the self-time per function name
    across all levels.  On a payload of the documented shape, with no
    negative name index or self-time, the accumulator holds for each name
    the sum of the [self_ticks] of every complete group that references
    it, each returned entry carries that sum, and no name is returned
    twice.  For [names = ["a", "b"]], [levels = [[0,10,3,0, 0,7,4,1]]],
    [numTicks = 10] and [n = 2] the result is [b] with self 4 and 40.0,
    then [a] with self 3 and 30.0; for [names = ["a"]],
    [levels = [[0,5,2,0], [0,5,3,0]]] and [numTicks = 5] it is [a] with
    self 5 and 100.0. *)
Theorem top_functions_sums_self_time :
  (forall (pyro_render : string -> string -> string -> option json)
          (base_url service profile_id : string) (data : json)
          (ns : list string) (lvls : list (list Z)) (t n : Z),
      pyro_render base_url profile_id service = Some data ->
      decodes_to data ns lvls t ->
      indexes_from_zero lvls -> self_ticks_from_zero lvls ->
      (exists sm,
          scan_levels (JArr (map JStr ns)) (map level_json lvls) [] = Ok sm /\
          forall name, sm_get sm (JStr name) 0 = self_total ns lvls name) /\
      (forall es,
          pyro_top_functions pyro_render base_url service profile_id n = Ok es ->
          NoDup (map function es) /\
          forall e, In e es ->
            exists name,
              function e = JStr name /\ self e = self_total ns lvls name)) /\
  (forall base_url service profile_id : string,
      pyro_top_functions
        (fun _ _ _ =>
           Some (flamebearer_payload ["a"; "b"] [[0; 10; 3; 0; 0; 7; 4; 1]] 10))
        base_url service profile_id 2 =
      Ok [mk_entry (JStr "b") 4 (B64_of_Z 40);
          mk_entry (JStr "a") 3 (B64_of_Z 30)]) /\
  (forall base_url service profile_id : string,
      pyro_top_functions
        (fun _ _ _ =>
           Some (flamebearer_payload ["a"] [[0; 5; 2; 0]; [0; 5; 3; 0]] 5))
        base_url service profile_id 5 =
      Ok [mk_entry (JStr "a") 5 (B64_of_Z 100)]).
Proof.
  split; [|split; intros; vm_compute; reflexivity].
  intros pyro_render base_url service profile_id data ns lvls t n
    Hfetch Hdec Hidx Hself.
  assert (forall name,
             total_for name (contributions ns lvls) = self_total ns lvls name)
    as Htotal by (intros; apply total_for_references; assumption).
  split.
  - exists (accumulate (contributions ns lvls) []).
    split; [apply scan_levels_typed, Hidx|].
    intros name. rewrite sm_get_accumulate. simpl. apply Htotal.
  - intros es Hes. unfold pyro_top_functions in Hes. rewrite Hfetch in Hes.
    rewrite (top_functions_decoded _ _ _ _ _ Hdec Hidx) in Hes.
    destruct (t =? 0).
    { injection Hes as <-. split; [constructor | intros e []]. }
    apply entries_items in Hes.
    split.
    + replace (map function es) with (map fst (map item_of es))
        by (rewrite map_map; reflexivity).
      rewrite Hes. apply ranking_keys_NoDup, accumulate_keys_NoDup.
    + intros e He.
      assert (In (item_of e) (accumulate (contributions ns lvls) [])) as Hin.
      { eapply ranking_In. rewrite <- Hes. apply in_map, He. }
      apply accumulate_In in Hin. destruct Hin as (name & Hname & Hv & _).
      exists name. split; [exact Hname|].
      rewrite <- Htotal. exact Hv.
Qed.

(** The first scenario's payload meets the hypotheses of the general part. *)
Lemma top_functions_sums_self_time_witness :
  exists sm,
    scan_levels (JArr (map JStr ["a"; "b"]))
      (map level_json [[0; 10; 3; 0; 0; 7; 4; 1]]) [] = Ok sm /\
    forall name,
      sm_get sm (JStr name) 0 =
      self_total ["a"; "b"] [[0; 10; 3; 0; 0; 7; 4; 1]] name.
Proof.
  refine (proj1 (proj1 top_functions_sums_self_time
    (fun _ _ _ =>
       Some (flamebearer_payload ["a"; "b"] [[0; 10; 3; 0; 0; 7; 4; 1]] 10))
    "http://pyroscope:4040" "bank-api-gateway" "process_cpu"
    (flamebearer_payload ["a"; "b"] [[0; 10; 3; 0; 0; 7; 4; 1]] 10)
    ["a"; "b"] [[0; 10; 3; 0; 0; 7; 4; 1]] 10 2
    eq_refl (flamebearer_payload_decodes _ _ _) _ _)).
  - repeat constructor; discriminate.
  - repeat constructor; discriminate.
Defined.

(** Every level is a run of complete groups followed by fewer than four
    elements. *)
Lemma level_split {A : Type} (l : list A) :
  exists items tail,
    l = items ++ tail /\
    (List.length items mod 4 = 0)%nat /\ (List.length tail < 4)%nat.
Proof.
  exists (firstn (4 * (List.length l / 4)) l),
         (skipn (4 * (List.length l / 4)) l).
  pose proof (Nat.div_mod_eq (List.length l) 4) as Hdm.
  pose proof (Nat.mod_upper_bound (List.length l) 4 ltac:(lia)) as Hlt.
  split; [symmetry; apply firstn_skipn|]. split.
  - rewrite length_firstn, Nat.min_l by lia.
    rewrite Nat.mul_comm. apply Nat.Div0.mod_mul.
  - rewrite length_skipn. lia.
Qed.

(** C2: every level list is scanned in groups of four from offset 0,
    advancing by four; what is left when fewer than four elements remain
    is dropped without error.  A level made of complete groups [items]
    followed by fewer than four elements [tail] is processed as the loop
    body on each group of [items] in turn, the [k]-th group being the
    elements at offsets [4k] to [4k + 3], exactly as the level without
    [tail]: [[0,5,3,1,9]] contributes the group [[0,5,3,1]] only. *)
Theorem scan_level_groups_of_four (names : json) (items tail : list json)
  (sm : self_map) :
  (List.length items mod 4 = 0)%nat ->
  (List.length tail < 4)%nat ->
  scan_level names (JArr (items ++ tail)) 0 sm =
    fold_groups names (groups items) sm /\
  scan_level names (JArr (items ++ tail)) 0 sm =
    scan_level names (JArr items) 0 sm /\
  (forall k a b c d,
      nth_error (groups items) k = Some (a, b, c, d) <->
      nth_error items (4 * k) = Some a /\
      nth_error items (4 * k + 1) = Some b /\
      nth_error items (4 * k + 2) = Some c /\
      nth_error items (4 * k + 3) = Some d).
Proof.
  intros Hmod Htail.
  assert (groups (items ++ tail) = groups items) as Hg.
  { rewrite (groups_app (List.length items / 4)).
    - rewrite (groups_short tail Htail). apply app_nil_r.
    - pose proof (Nat.div_mod_eq (List.length items) 4). lia. }
  rewrite !scan_level_from. cbn [skipn]. rewrite Hg.
  split; [reflexivity|]. split; [reflexivity|].
  intros k a b c d. apply groups_nth.
Qed.

(** The level [[0,5,3,1,9]]: one complete group and the trailing [9]. *)
Lemma scan_level_groups_of_four_witness :
  Nat.modulo (List.length (map JInt [0; 5; 3; 1])) 4 = 0%nat /\
  lt (List.length [JInt 9]) 4 /\
  scan_level (JArr [JStr "a"; JStr "b"]) (JArr (map JInt [0; 5; 3; 1; 9])) 0 [] =
  scan_level (JArr [JStr "a"; JStr "b"]) (JArr (map JInt [0; 5; 3; 1])) 0 [].
Proof.
  split; [reflexivity|]. split; [simpl; lia|].
  refine (proj1 (proj2 (scan_level_groups_of_four
    (JArr [JStr "a"; JStr "b"]) (map JInt [0; 5; 3; 1]) [JInt 9] [] _ _))).
  - reflexivity.
  - simpl. lia.
Defined.

(** ** The accumulator on any payload *)

Lemma sm_get_nonneg (sm : self_map) (k : json) :
  positive_totals sm -> 0 <= sm_get sm k 0.
Proof.
  induction 1 as [|[k1 v1] rest Hv _ IH]; simpl.
  - lia.
  - destruct (key_eqb k k1); [simpl in Hv; lia | exact IH].
Qed.

Lemma sm_set_positive (sm : self_map) (k : json) (v : Z) :
  positive_totals sm -> 0 < v -> positive_totals (sm_set sm k v).
Proof.
  intros Hsm Hv. induction Hsm as [|[k1 v1] rest Hv1 Hrest IH]; simpl.
  - repeat constructor. exact Hv.
  - destruct (key_eqb k k1); constructor; assumption.
Qed.

Lemma frame_body_positive (names name_idx self_val : json) (sm sm' : self_map) :
  positive_totals sm ->
  frame_body names name_idx self_val sm = Ok sm' ->
  positive_totals sm'.
Proof.
  intros Hsm. unfold frame_body.
  destruct (py_len names) as [len|]; [|discriminate]. cbn [bind].
  destruct (py_lt name_idx (Z.of_nat len)) as [[|]|]; cbn [bind];
    [| intros [= <-]; exact Hsm | discriminate].
  unfold py_gt.
  destruct (as_int self_val) as [v|]; [|discriminate]. cbn [bind].
  destruct (0 <? v) eqn:Hv; [| intros [= <-]; exact Hsm].
  apply Z.ltb_lt in Hv.
  destruct (py_subscript names name_idx) as [key|]; [|discriminate].
  cbn [bind].
  destruct (hashable key); [|discriminate].
  intros [= <-]. apply sm_set_positive; [exact Hsm|].
  pose proof (sm_get_nonneg sm key Hsm). lia.
Qed.

Lemma scan_level_positive (names level : json) (i : nat) (sm sm' : self_map) :
  positive_totals sm ->
  scan_level names level i sm = Ok sm' ->
  positive_totals sm'.
Proof.
  remember (size_of level - i)%nat as k eqn:Hk.
  revert i sm Hk. induction k as [k IH] using lt_wf_ind. intros i sm Hk Hsm.
  rewrite scan_level_step.
  destruct (py_len level) as [len|] eqn:Hlen; [|discriminate].
  destruct (i + 3 <? len)%nat eqn:Hlt; [| intros [= <-]; exact Hsm].
  apply Nat.ltb_lt in Hlt.
  destruct (frame names level i sm) as [sm1|] eqn:Hf; [|discriminate].
  apply (IH (size_of level - (i + 4))%nat).
  - unfold size_of in *. rewrite Hlen in *. lia.
  - reflexivity.
  - unfold frame in Hf.
    destruct (py_getitem level (Z.of_nat i + 3)) as [name_idx|]; [|discriminate].
    destruct (py_getitem level (Z.of_nat i + 2)) as [self_val|]; [|discriminate].
    eapply frame_body_positive; [exact Hsm | exact Hf].
Qed.

Lemma scan_levels_positive (names : json) (levels : list json)
  (sm sm' : self_map) :
  positive_totals sm ->
  scan_levels names levels sm = Ok sm' ->
  positive_totals sm'.
Proof.
  revert sm. induction levels as [|level rest IH]; intros sm Hsm; simpl.
  - intros [= <-]. exact Hsm.
  - destruct (scan_level names level 0 sm) as [sm1|] eqn:H1; [|discriminate].
    cbn [bind]. apply IH. eapply scan_level_positive; [exact Hsm | exact H1].
Qed.

(** What [pyro_top_functions] does with a decoded payload, whatever [n]:
    it raises, or returns nothing, or returns the entries of the ranking of
    an accumulator with positive totals. *)
Lemma top_functions_of_shape (data : json) :
  (exists e, forall n, top_functions_of data n = Raise e) \/
  (forall n, top_functions_of data n = Ok []) \/
  (exists total sm,
      num_ticks_of data = Ok total /\ py_eq_zero total = false /\
      positive_totals sm /\
      forall n,
        top_functions_of data n = entries total (slice_to (sorted sm) n)).
Proof.
  unfold top_functions_of, num_ticks_of.
  destruct (dict_get data "flamebearer" (JObj [])) as [fb|e]; cbn [bind];
    [| left; exists e; reflexivity].
  destruct (dict_get fb "names" (JArr [])) as [names|e] eqn:Hnames;
    cbn [bind].
  2:{ left. exists e. reflexivity. }
  destruct (dict_get fb "levels" (JArr [])) as [levels|e]; cbn [bind];
    [| left; exists e; reflexivity].
  destruct (dict_get fb "numTicks" (JInt 0)) as [total|e]; cbn [bind];
    [| left; exists e; reflexivity].
  destruct (py_eq_zero total) eqn:Hzero; [right; left; reflexivity|].
  destruct (py_iter levels) as [levels'|e]; cbn [bind];
    [| left; exists e; reflexivity].
  destruct (scan_levels names levels' []) as [sm|e] eqn:Hscan; cbn [bind];
    [| left; exists e; reflexivity].
  right. right. exists total, sm.
  split; [reflexivity|]. split; [exact Hzero|].
  split; [|reflexivity].
  eapply scan_levels_positive; [constructor | exact Hscan].
Qed.

Lemma entries_firstn (total : json) (top : list (json * Z)) (es : list entry)
  (k : nat) :
  entries total top = Ok es ->
  entries total (firstn k top) = Ok (firstn k es).
Proof.
  revert es k. induction top as [|[name val] rest IH]; intros es k H.
  - injection H as <-. destruct k; reflexivity.
  - cbn [entries] in H.
    destruct (percent val total) as [p|] eqn:Ep; [|discriminate].
    cbn [bind] in H.
    destruct (entries total rest) as [es'|] eqn:Er; [|discriminate].
    cbn [bind] in H. injection H as <-.
    destruct k as [|k]; [reflexivity|].
    cbn [firstn entries]. rewrite Ep. cbn [bind].
    rewrite (IH es' k eq_refl). reflexivity.
Qed.

Lemma entries_length (total : json) (top : list (json * Z)) (es : list entry) :
  entries total top = Ok es -> List.length es = List.length top.
Proof.
  intros H. apply entries_items in H. rewrite <- H. symmetry. apply length_map.
Qed.

(** ** The result size [n] *)

(** C3, as the code has it: with [n = -1] the scenario payload of two
    functions returns one entry, not the empty sequence. *)
Lemma negative_n_returns_entries :
  -1 <= 0 /\
  pyro_top_functions
    (fun _ _ _ =>
       Some (flamebearer_payload ["a"; "b"] [[0; 10; 3; 0; 0; 7; 4; 1]] 10))
    "http://pyroscope:4040" "bank-api-gateway" "process_cpu" (-1) =
  Ok [mk_entry (JStr "b") 4 (B64_of_Z 40)].
Proof. split; [lia | vm_compute; reflexivity]. Qed.

(** C3, amended: with [n = 0] [pyro_top_functions] returns the empty
    sequence whenever it returns, and it does return on a payload of the
    documented shape without a negative name index; with a negative [n]
    the slice [[:n]] drops the last [-n] entries of the complete ranking,
    so the result is empty only when at most [-n] functions were ranked. *)
Theorem top_functions_nonpositive_n
  (pyro_render : string -> string -> string -> option json)
  (base_url service profile_id : string) (data : json) :
  pyro_render base_url profile_id service = Some data ->
  (forall es,
      pyro_top_functions pyro_render base_url service profile_id 0 = Ok es ->
      es = []) /\
  (forall ns lvls t,
      decodes_to data ns lvls t -> indexes_from_zero lvls ->
      pyro_top_functions pyro_render base_url service profile_id 0 = Ok []) /\
  (forall n m full,
      n < 0 -> 0 <= m ->
      pyro_top_functions pyro_render base_url service profile_id m = Ok full ->
      Z.of_nat (List.length full) < m ->
      pyro_top_functions pyro_render base_url service profile_id n =
      Ok (firstn (List.length full - Z.to_nat (- n)) full)).
Proof.
  intros Hfetch. unfold pyro_top_functions. rewrite Hfetch.
  split; [|split].
  - intros es Hes.
    destruct (top_functions_of_shape data)
      as [(e & Hr) | [Hnil | (total & sm & _ & _ & _ & Hr)]];
      rewrite ?Hr, ?Hnil in Hes; try congruence.
    simpl in Hes. congruence.
  - intros ns lvls t Hdec Hidx.
    rewrite (top_functions_decoded _ _ _ _ _ Hdec Hidx).
    destruct (t =? 0); reflexivity.
  - intros n m full Hn Hm Hfull Hlen.
    destruct (top_functions_of_shape data)
      as [(e & Hr) | [Hnil | (total & sm & _ & _ & _ & Hr)]].
    + rewrite Hr in Hfull. discriminate.
    + rewrite Hnil in *. injection Hfull as <-. destruct (_ - _)%nat; reflexivity.
    + rewrite Hr in *. unfold slice_to in *.
      replace (m <? 0) with false in Hfull by (symmetry; apply Z.ltb_ge; lia).
      replace (n <? 0) with true by (symmetry; apply Z.ltb_lt; lia).
      pose proof (entries_length _ _ _ Hfull) as Hl.
      rewrite length_firstn in Hl.
      rewrite firstn_all2 in Hfull by lia.
      replace (List.length (sorted sm)) with (List.length full) by lia.
      apply entries_firstn, Hfull.
Qed.

(** The scenario payload with [n = 0]. *)
Lemma top_functions_nonpositive_n_witness :
  pyro_top_functions
    (fun _ _ _ =>
       Some (flamebearer_payload ["a"; "b"] [[0; 10; 3; 0; 0; 7; 4; 1]] 10))
    "http://pyroscope:4040" "bank-api-gateway" "process_cpu" 0 = Ok [].
Proof.
  refine (proj1 (proj2 (top_functions_nonpositive_n
    (fun _ _ _ =>
       Some (flamebearer_payload ["a"; "b"] [[0; 10; 3; 0; 0; 7; 4; 1]] 10))
    "http://pyroscope:4040" "bank-api-gateway" "process_cpu" _ eq_refl))
    ["a"; "b"] [[0; 10; 3; 0; 0; 7; 4; 1]] 10
    (flamebearer_payload_decodes _ _ _) _).
  repeat constructor; discriminate.
Defined.

(** ** Zero ticks *)

Lemma frame_body_no_zero_division (names name_idx self_val : json)
  (sm : self_map) :
  frame_body names name_idx self_val sm <> Raise ZeroDivisionError.
Proof.
  unfold frame_body, py_len, py_lt, py_gt, py_subscript, py_getitem,
    seq_item, dict_item, bind.
  break_matches; discriminate.
Qed.

Lemma scan_level_no_zero_division (names level : json) (i : nat)
  (sm : self_map) :
  scan_level names level i sm <> Raise ZeroDivisionError.
Proof.
  remember (size_of level - i)%nat as k eqn:Hk.
  revert i sm Hk. induction k as [k IH] using lt_wf_ind. intros i sm Hk.
  rewrite scan_level_step.
  destruct (py_len level) as [len|e] eqn:Hlen.
  - destruct (i + 3 <? len)%nat eqn:Hlt; [|discriminate].
    apply Nat.ltb_lt in Hlt.
    destruct (frame names level i sm) as [sm1|e] eqn:Hf.
    + apply (IH (size_of level - (i + 4))%nat); [|reflexivity].
      unfold size_of in *. rewrite Hlen in *. lia.
    + intros [= ->]. revert Hf. unfold frame, py_getitem, seq_item, bind.
      break_matches; try discriminate; apply frame_body_no_zero_division.
  - destruct level; simpl in Hlen; congruence.
Qed.

Lemma scan_levels_no_zero_division (names : json) (levels : list json)
  (sm : self_map) :
  scan_levels names levels sm <> Raise ZeroDivisionError.
Proof.
  revert sm. induction levels as [|level rest IH]; intros sm; simpl.
  - discriminate.
  - destruct (scan_level names level 0 sm) as [sm1|e] eqn:H1; cbn [bind].
    + apply IH.
    + intros [= ->]. exact (scan_level_no_zero_division _ _ _ _ H1).
Qed.

Lemma percent_no_zero_division (val : Z) (total : json) :
  py_eq_zero total = false -> percent val total <> Raise ZeroDivisionError.
Proof.
  unfold py_eq_zero, percent, py_truediv, int_truediv.
  destruct (as_int total) as [t|]; [|discriminate].
  intros ->.
  destruct (round_binary64 _ _ _); cbn [bind]; try discriminate;
    unfold py_round1; break_matches; discriminate.
Qed.

Lemma entries_no_zero_division (total : json) (top : list (json * Z)) :
  py_eq_zero total = false -> entries total top <> Raise ZeroDivisionError.
Proof.
  intros Hzero. induction top as [|[name val] rest IH]; cbn [entries].
  - discriminate.
  - destruct (percent val total) as [p|e] eqn:Hp; cbn [bind].
    + destruct (entries total rest) as [es|e]; cbn [bind];
        [discriminate | exact IH].
    + intros [= ->]. exact (percent_no_zero_division _ _ Hzero Hp).
Qed.

Lemma dict_get_raises (d : json) (k : string) (default : json) (e : exn) :
  dict_get d k default = Raise e -> e = AttributeError.
Proof.
  unfold dict_get. destruct d; try congruence.
  destruct (assoc k fields); discriminate.
Qed.

Lemma py_iter_raises (v : json) (e : exn) :
  py_iter v = Raise e -> e = TypeError.
Proof. destruct v; simpl; congruence. Qed.

(** No payload makes [pyro_top_functions] divide by zero. *)
Lemma top_functions_no_zero_division (data : json) (n : Z) :
  top_functions_of data n <> Raise ZeroDivisionError.
Proof.
  unfold top_functions_of.
  destruct (dict_get data "flamebearer" (JObj [])) as [fb|e] eqn:H1;
    cbn [bind]; [|apply dict_get_raises in H1; congruence].
  destruct (dict_get fb "names" (JArr [])) as [names|e] eqn:H2;
    cbn [bind]; [|apply dict_get_raises in H2; congruence].
  destruct (dict_get fb "levels" (JArr [])) as [levels|e] eqn:H3;
    cbn [bind]; [|apply dict_get_raises in H3; congruence].
  destruct (dict_get fb "numTicks" (JInt 0)) as [total|e] eqn:H4;
    cbn [bind]; [|apply dict_get_raises in H4; congruence].
  destruct (py_eq_zero total) eqn:Hzero; [discriminate|].
  destruct (py_iter levels) as [levels'|e] eqn:H5;
    cbn [bind]; [|apply py_iter_raises in H5; congruence].
  destruct (scan_levels names levels' []) as [sm|e] eqn:H6; cbn [bind].
  - apply entries_no_zero_division, Hzero.
  - intros [= ->]. exact (scan_levels_no_zero_division _ _ _ H6).
Qed.

(** C5: when the flamebearer's [numTicks] equals 0, [pyro_top_functions]
    returns the empty sequence, whatever [names] and [levels] hold and
    whatever [n]: the test comes before the loops and the division. *)
Theorem zero_ticks_returns_empty
  (pyro_render : string -> string -> string -> option json)
  (base_url service profile_id : string) (n : Z)
  (data : json) (fields fb : list (string * json)) (total : json) :
  pyro_render base_url profile_id service = Some data ->
  data = JObj fields ->
  assoc "flamebearer" fields = Some (JObj fb) ->
  assoc "numTicks" fb = Some total ->
  py_eq_zero total = true ->
  pyro_top_functions pyro_render base_url service profile_id n = Ok [].
Proof.
  intros Hfetch -> Hfb Ht Hzero.
  unfold pyro_top_functions. rewrite Hfetch.
  unfold top_functions_of. cbn [dict_get]. rewrite Hfb. cbn [bind dict_get].
  rewrite Ht.
  destruct (assoc "names" fb); destruct (assoc "levels" fb);
    cbn [bind]; rewrite Hzero; reflexivity.
Qed.

(** [numTicks = 0] beside [names] and [levels] that no loop could read. *)
Lemma zero_ticks_returns_empty_witness :
  py_eq_zero (JInt 0) = true /\
  pyro_top_functions
    (fun _ _ _ =>
       Some (JObj [("flamebearer",
                    JObj [("names", JNull); ("levels", JInt 7);
                          ("numTicks", JInt 0)])]))
    "http://pyroscope:4040" "bank-api-gateway" "process_cpu" 5 = Ok [].
Proof.
  split; [reflexivity|].
  exact (zero_ticks_returns_empty
    (fun _ _ _ =>
       Some (JObj [("flamebearer",
                    JObj [("names", JNull); ("levels", JInt 7);
                          ("numTicks", JInt 0)])]))
    "http://pyroscope:4040" "bank-api-gateway" "process_cpu" 5
    _ _ _ (JInt 0) eq_refl eq_refl eq_refl eq_refl eq_refl).
Defined.

(** ** Rounding to a double *)

Lemma round_half_even_le (num den N : Z) :
  0 < den -> num <= N * den -> round_half_even num den <= N.
Proof.
  intros Hden Hle. unfold round_half_even.
  pose proof (Z.div_mod num den ltac:(lia)) as Hdm.
  pose proof (Z.mod_pos_bound num den Hden) as Hr.
  destruct (2 * (num mod den) ?= den) eqn:E.
  - apply Z.compare_eq in E. destruct (Z.even (num / den)); nia.
  - nia.
  - apply Z.compare_gt_iff in E. nia.
Qed.

Lemma round_half_even_nonneg (num den : Z) :
  0 <= num -> 0 < den -> 0 <= round_half_even num den.
Proof.
  intros Hnum Hden. unfold round_half_even.
  pose proof (Z.div_pos num den Hnum Hden).
  destruct (2 * (num mod den) ?= den); [destruct (Z.even _)| |]; lia.
Qed.

Lemma flog2_le (a b K : Z) :
  0 < a -> 0 < b -> a < 2 ^ (K + 1) * b -> flog2 a b <= K.
Proof.
  intros Ha Hb Hlt.
  assert (0 <= K + 1) as HK.
  { destruct (Z.lt_ge_cases (K + 1) 0) as [Hneg|]; [|assumption].
    rewrite (Z.pow_neg_r 2 (K + 1) Hneg) in Hlt. lia. }
  assert (Z.log2 a - Z.log2 b <= K + 1) as Hk0.
  { assert (Z.log2 a <= Z.log2 (b * 2 ^ (K + 1))) as H
      by (apply Z.log2_le_mono; lia).
    rewrite Z.log2_mul_pow2 in H by lia. lia. }
  unfold flog2.
  destruct (pow2_le_frac (Z.log2 a - Z.log2 b) a b) eqn:E; [|lia].
  unfold pow2_le_frac in E.
  destruct (0 <=? Z.log2 a - Z.log2 b) eqn:E0; [|apply Z.leb_gt in E0; lia].
  apply Z.leb_le in E0. apply Z.leb_le in E.
  assert (2 ^ (Z.log2 a - Z.log2 b) < 2 ^ (K + 1)) as Hp by nia.
  apply Z.pow_lt_mono_r_iff in Hp; lia.
Qed.

Lemma ulp_exp_nonpos (a b C : Z) :
  0 < a -> 0 < b -> a <= C * b -> C < 2 ^ 53 -> ulp_exp a b <= 0.
Proof.
  intros Ha Hb Hle HC. unfold ulp_exp.
  assert (flog2 a b <= 52) by (apply flog2_le; try assumption; simpl (52 + 1); nia).
  lia.
Qed.

Lemma scaled_round_le (a b e C : Z) :
  0 <= a -> 0 < b -> a <= C * b -> e <= 0 ->
  0 <= scaled_round a b e <= C * 2 ^ (- e).
Proof.
  intros Ha Hb Hle He. unfold scaled_round.
  assert (0 < 2 ^ (- e)) as HP by (apply Z.pow_pos_nonneg; lia).
  destruct (0 <=? e) eqn:E.
  - apply Z.leb_le in E. assert (e = 0) as -> by lia. simpl (- 0). simpl (2 ^ 0).
    split.
    + apply round_half_even_nonneg; lia.
    + apply round_half_even_le; lia.
  - split.
    + apply round_half_even_nonneg; nia.
    + apply round_half_even_le; [lia | nia].
Qed.

Lemma frac_of_bound (p : positive) (e C : Z) :
  e <= 0 -> Zpos p <= C * 2 ^ (- e) ->
  fst (frac_of p e) <= C * snd (frac_of p e).
Proof.
  intros He Hle. unfold frac_of.
  destruct (0 <=? e) eqn:E.
  - apply Z.leb_le in E. assert (e = 0) as -> by lia. simpl in *. lia.
  - simpl. exact Hle.
Qed.

Lemma round_binary64_le (s : bool) (a b C : Z) :
  0 <= a -> 0 < b -> a <= C * b -> C < 2 ^ 53 ->
  magnitude_le (round_binary64 s a b) C /\ has_sign s (round_binary64 s a b).
Proof.
  intros Ha Hb Hle HC. unfold round_binary64.
  destruct (a =? 0) eqn:Ea; [simpl; auto|].
  apply Z.eqb_neq in Ea.
  pose proof (ulp_exp_nonpos a b C ltac:(lia) Hb Hle HC) as He.
  pose proof (scaled_round_le a b (ulp_exp a b) C Ha Hb Hle He) as Hm.
  set (e := ulp_exp a b) in *. set (m := scaled_round a b e) in *.
  destruct (m =? 2 ^ 53) eqn:Em.
  - apply Z.eqb_eq in Em.
    assert (e < 0) as Hneg.
    { destruct (Z.eq_dec e 0) as [E0|]; [|lia].
      rewrite E0 in Hm. simpl in Hm. lia. }
    change (2 ^ 52) with (Zpos (2 ^ 52)%positive). cbv beta iota.
    replace (971 <? e + 1) with false by (symmetry; apply Z.ltb_ge; lia).
    split; [|reflexivity]. simpl.
    apply frac_of_bound; [lia|].
    replace (- e) with (Z.succ (- (e + 1))) in Hm by lia.
    rewrite Z.pow_succ_r in Hm by lia.
    change (Z.pos (2 ^ 52)) with (2 ^ 52). 
    assert (2 ^ 53 = 2 * 2 ^ 52) as H53 by reflexivity. lia.
  - destruct m as [|p|p] eqn:Ep; [simpl; auto | | simpl; auto].
    replace (971 <? e) with false by (symmetry; apply Z.ltb_ge; lia).
    split; [|reflexivity]. simpl.
    apply frac_of_bound; lia.
Qed.

Lemma frac_of_pos (m : positive) (e : Z) :
  0 < fst (frac_of m e) /\ 0 < snd (frac_of m e).
Proof.
  unfold frac_of. destruct (0 <=? e) eqn:E; cbn [fst snd].
  - apply Z.leb_le in E. split; [|lia].
    apply Z.mul_pos_pos; [lia | apply Z.pow_pos_nonneg; lia].
  - apply Z.leb_gt in E. split; [lia | apply Z.pow_pos_nonneg; lia].
Qed.

(** [a / b] with [0 < a <= b] is a double between 0 and 1. *)
Lemma int_truediv_le_one (a b : Z) :
  0 < a <= b ->
  exists x, int_truediv a b = Ok x /\ magnitude_le x 1 /\ has_sign false x.
Proof.
  intros Hab. unfold int_truediv.
  replace (b =? 0) with false by (symmetry; apply Z.eqb_neq; lia).
  replace (a <? 0) with false by (symmetry; apply Z.ltb_ge; lia).
  replace (b <? 0) with false by (symmetry; apply Z.ltb_ge; lia).
  rewrite !Z.abs_eq by lia. cbn [xorb].
  destruct (round_binary64_le false a b 1) as [Hm Hs];
    [lia | lia | lia | reflexivity |].
  destruct (round_binary64 false a b) as [s|s| |s m e];
    cbn [magnitude_le] in Hm; try contradiction;
    eexists; repeat split; assumption.
Qed.

(** [x * 100] for a double [x] between 0 and 1 is between 0 and 100. *)
Lemma float_mul_hundred_le (x : spec_float) :
  magnitude_le x 1 -> has_sign false x ->
  magnitude_le (float_mul x (float_of_int 100)) 100 /\
  has_sign false (float_mul x (float_of_int 100)).
Proof.
  intros Hm Hs.
  change (float_of_int 100) with (S754_finite false 7036874417766400 (-46)).
  destruct x as [s|s| |s m e]; cbn [magnitude_le has_sign] in Hm, Hs; try contradiction; subst s.
  - simpl. auto.
  - unfold float_mul.
    pose proof (frac_of_pos m e) as [Ha Hb].
    destruct (frac_of m e) as [ax bx]. cbn [fst snd] in Hm, Ha, Hb.
    change (frac_of 7036874417766400 (-46))
      with (7036874417766400, 70368744177664).
    cbv beta iota. cbn [xorb].
    apply round_binary64_le; [lia | lia | lia | reflexivity].
Qed.

(** [round(y, 1)] for a double [y] between 0 and 100 is between 0 and 100. *)
Lemma py_round1_le (y : spec_float) :
  magnitude_le y 100 -> has_sign false y ->
  exists r, py_round1 y = Ok r /\ magnitude_le r 100 /\ has_sign false r.
Proof.
  intros Hm Hs.
  destruct y as [s|s| |s m e]; cbn [magnitude_le has_sign] in Hm, Hs; try contradiction; subst s.
  - exists (S754_zero false). simpl. auto.
  - unfold py_round1.
    pose proof (frac_of_pos m e) as [Ha Hb].
    destruct (frac_of m e) as [a b]. cbn [fst snd] in Hm, Ha, Hb.
    pose proof (round_half_even_le (10 * a) b 1000 Hb ltac:(lia)) as Hle.
    pose proof (round_half_even_nonneg (10 * a) b ltac:(lia) Hb) as H0.
    destruct (round_binary64_le false (round_half_even (10 * a) b) 10 100)
      as [Hrm Hrs]; [lia | lia | lia | reflexivity |].
    destruct (round_binary64 false (round_half_even (10 * a) b) 10)
      as [s'|s'| |s' m' e']; cbn [magnitude_le] in Hrm; try contradiction;
      eexists; repeat split; assumption.
Qed.

(** [round(val / t * 100, 1)] for [0 < val <= t]: the division does not
    overflow and the percentage is between 0 and 100. *)
Lemma percent_le_hundred (val t : Z) (total : json) :
  as_int total = Some t -> 0 < val <= t ->
  exists p, percent val total = Ok p /\ magnitude_le p 100 /\ has_sign false p.
Proof.
  intros Ht Hv. unfold percent, py_truediv. rewrite Ht.
  destruct (int_truediv_le_one val t Hv) as (x & -> & Hm & Hs). cbn [bind].
  destruct (float_mul_hundred_le x Hm Hs) as [Hm' Hs'].
  apply py_round1_le; assumption.
Qed.

Lemma magnitude_le_Q (x : spec_float) (C : Z) :
  magnitude_le x C -> has_sign false x -> 0 <= C ->
  is_finite x = true /\ (0 <= SF2Q x)%Q /\ (SF2Q x <= inject_Z C)%Q.
Proof.
  intros Hm Hs HC.
  destruct x as [s|s| |s m e]; cbn [magnitude_le has_sign] in Hm, Hs; try contradiction; subst s.
  - simpl. repeat split; unfold Qle; simpl; lia.
  - unfold SF2Q, is_finite.
    pose proof (frac_of_pos m e) as [Ha Hb].
    destruct (frac_of m e) as [a b]. cbn [fst snd] in Hm, Ha, Hb.
    repeat split; unfold Qle; simpl; rewrite ?Z2Pos.id by lia; lia.
Qed.

(** ** The percentage *)

(** On the values of the scenarios the three rounding steps give what the
    Standard Library's reference operations on [spec_float] give. *)
Lemma percent_steps_agree_with_SpecFloat :
  float_of_int 100 = B64_of_Z 100 /\
  int_truediv 3 10 = Ok (SFdiv 53 1024 (B64_of_Z 3) (B64_of_Z 10)) /\
  int_truediv 4 10 = Ok (SFdiv 53 1024 (B64_of_Z 4) (B64_of_Z 10)) /\
  int_truediv 7 5 = Ok (SFdiv 53 1024 (B64_of_Z 7) (B64_of_Z 5)) /\
  int_truediv 1 3 = Ok (SFdiv 53 1024 (B64_of_Z 1) (B64_of_Z 3)) /\
  float_mul (SFdiv 53 1024 (B64_of_Z 3) (B64_of_Z 10)) (float_of_int 100) =
    SFmul 53 1024 (SFdiv 53 1024 (B64_of_Z 3) (B64_of_Z 10)) (B64_of_Z 100) /\
  float_mul (SFdiv 53 1024 (B64_of_Z 1) (B64_of_Z 3)) (float_of_int 100) =
    SFmul 53 1024 (SFdiv 53 1024 (B64_of_Z 1) (B64_of_Z 3)) (B64_of_Z 100) /\
  percent 1 (JInt 3) = Ok (S754_finite false 4686558362232422 (-47)) /\
  percent 1 (JInt 2000) = Ok (SFdiv 53 1024 (B64_of_Z 1) (B64_of_Z 10)).
Proof. repeat split; vm_compute; reflexivity. Qed.

(** C7, as the code has it: a frame whose self-time exceeds [numTicks]
    ([names = ["a"]], [levels = [[0,5,7,0]]], [numTicks = 5]) is returned
    with the percentage 140.0. *)
Lemma pct_above_hundred :
  exists e,
    pyro_top_functions
      (fun _ _ _ => Some (flamebearer_payload ["a"] [[0; 5; 7; 0]] 5))
      "http://pyroscope:4040" "bank-api-gateway" "process_cpu" 5 = Ok [e] /\
    pct e = B64_of_Z 140 /\ (100 < SF2Q (pct e))%Q.
Proof.
  eexists. split; [vm_compute; reflexivity|]. split; reflexivity.
Qed.

(** C7, amended: every returned entry has a positive [self] and its [pct]
    is [round(self / numTicks * 100, 1)] exactly; the [pct] lies in
    [[0, 100]] when [numTicks] is positive and [self] is at most
    [numTicks]. *)
Theorem pct_formula_and_range
  (pyro_render : string -> string -> string -> option json)
  (base_url service profile_id : string) (data : json) (n : Z)
  (es : list entry) :
  pyro_render base_url profile_id service = Some data ->
  pyro_top_functions pyro_render base_url service profile_id n = Ok es ->
  forall e, In e es ->
    exists total,
      num_ticks_of data = Ok total /\
      percent (self e) total = Ok (pct e) /\
      0 < self e /\
      (forall t, as_int total = Some t -> 0 < t -> self e <= t ->
         is_finite (pct e) = true /\
         (0 <= SF2Q (pct e))%Q /\ (SF2Q (pct e) <= 100)%Q).
Proof.
  intros Hfetch Hes e He. unfold pyro_top_functions in Hes.
  rewrite Hfetch in Hes.
  destruct (top_functions_of_shape data)
    as [(x & Hr) | [Hnil | (total & sm & Htotal & _ & Hpos & Hr)]].
  - rewrite Hr in Hes. discriminate.
  - rewrite Hnil in Hes. injection Hes as <-. destruct He.
  - rewrite Hr in Hes. exists total.
    assert (percent (self e) total = Ok (pct e)) as Hpct.
    { pose proof (entries_percent _ _ _ Hes) as Hall.
      rewrite Forall_forall in Hall. apply Hall, He. }
    assert (0 < self e) as Hself.
    { apply entries_items in Hes.
      assert (In (item_of e) sm) as Hin
        by (eapply ranking_In; rewrite <- Hes; apply in_map, He).
      unfold positive_totals in Hpos. rewrite Forall_forall in Hpos.
      apply (Hpos _ Hin). }
    split; [exact Htotal|]. split; [exact Hpct|]. split; [exact Hself|].
    intros t Ht Hpos_t Hle.
    destruct (percent_le_hundred (self e) t total Ht ltac:(lia))
      as (p & Hp & Hm & Hs).
    assert (p = pct e) as -> by congruence.
    apply (magnitude_le_Q _ 100 Hm Hs). lia.
Qed.

(** The first entry of the first scenario: self 4 of 10 ticks, 40.0. *)
Lemma pct_formula_and_range_witness :
  exists total,
    num_ticks_of (flamebearer_payload ["a"; "b"] [[0; 10; 3; 0; 0; 7; 4; 1]] 10)
      = Ok total /\
    percent 4 total = Ok (B64_of_Z 40) /\
    0 < 4 /\
    (forall t, as_int total = Some t -> 0 < t -> 4 <= t ->
       is_finite (B64_of_Z 40) = true /\
       (0 <= SF2Q (B64_of_Z 40))%Q /\ (SF2Q (B64_of_Z 40) <= 100)%Q).
Proof.
  refine (pct_formula_and_range
    (fun _ _ _ =>
       Some (flamebearer_payload ["a"; "b"] [[0; 10; 3; 0; 0; 7; 4; 1]] 10))
    "http://pyroscope:4040" "bank-api-gateway" "process_cpu"
    (flamebearer_payload ["a"; "b"] [[0; 10; 3; 0; 0; 7; 4; 1]] 10) 2
    [mk_entry (JStr "b") 4 (B64_of_Z 40); mk_entry (JStr "a") 3 (B64_of_Z 30)]
    eq_refl _ (mk_entry (JStr "b") 4 (B64_of_Z 40)) _).
  - vm_compute. reflexivity.
  - left. reflexivity.
Defined.

(** ** The sum of the returned self-times *)

Lemma sum_app (l1 l2 : list Z) : sum (l1 ++ l2) = sum l1 + sum l2.
Proof. unfold sum. induction l1 as [|a l1 IH]; simpl; lia. Qed.

Lemma sum_nonneg (l : list Z) : Forall (fun v => 0 <= v) l -> 0 <= sum l.
Proof. unfold sum. induction 1; simpl; lia. Qed.

Lemma sum_perm (l l' : list Z) : Permutation l l' -> sum l = sum l'.
Proof. unfold sum. induction 1; simpl; lia. Qed.

Lemma sum_firstn_le (m : nat) (l : list Z) :
  Forall (fun v => 0 <= v) l -> sum (firstn m l) <= sum l.
Proof.
  intros H. rewrite <- (firstn_skipn m l) at 2. rewrite sum_app.
  assert (0 <= sum (skipn m l)); [|lia].
  apply sum_nonneg. rewrite <- (firstn_skipn m l) in H.
  apply Forall_app in H. apply H.
Qed.

Lemma sum_In_le (v : Z) (l : list Z) :
  Forall (fun v => 0 <= v) l -> In v l -> v <= sum l.
Proof.
  intros H Hin. apply in_split in Hin. destruct Hin as (l1 & l2 & ->).
  apply Forall_app in H. destruct H as [H1 H2].
  inversion H2 as [|? ? Hv H2']. subst.
  rewrite sum_app. change (sum (v :: l2)) with (v + sum l2).
  pose proof (sum_nonneg _ H1). pose proof (sum_nonneg _ H2'). lia.
Qed.

Lemma sum_sm_set (sm : self_map) (k : json) (v : Z) :
  sum (map snd (sm_set sm k (sm_get sm k 0 + v))) = sum (map snd sm) + v.
Proof.
  unfold sum. induction sm as [|[k1 v1] rest IH]; simpl.
  - lia.
  - destruct (key_eqb k k1); simpl; lia.
Qed.

(** The accumulator adds up to the contributions it was given. *)
Lemma sum_accumulate (cs : list (string * Z)) (sm : self_map) :
  sum (map snd (accumulate cs sm)) = sum (map snd sm) + sum (map snd cs).
Proof.
  revert sm. induction cs as [|[k v] cs IH]; intros sm.
  - unfold sum. simpl. lia.
  - change (accumulate ((k, v) :: cs) sm)
      with (accumulate cs (sm_set sm (JStr k) (sm_get sm (JStr k) 0 + v))).
    rewrite IH, sum_sm_set. unfold sum. simpl. lia.
Qed.

Lemma sum_contributions_le (ns : list string) (gs : list (Z * Z * Z * Z)) :
  Forall (fun g => 0 <= self_ticks g) gs ->
  sum (map snd (group_contributions ns gs)) <= sum (map self_ticks gs).
Proof.
  unfold group_contributions, sum.
  induction 1 as [|g gs Hg _ IH]; simpl; [lia|].
  destruct (contributes ns g); simpl; lia.
Qed.

Lemma accumulate_positive (ns : list string) (gs : list (Z * Z * Z * Z))
  (sm : self_map) :
  positive_totals sm -> positive_totals (accumulate (group_contributions ns gs) sm).
Proof.
  unfold group_contributions. revert sm.
  induction gs as [|g gs IH]; intros sm Hsm; [exact Hsm|].
  cbn [filter]. destruct (contributes ns g) eqn:Hc; [|apply IH, Hsm].
  cbn [map]. apply IH. cbn [fst snd]. apply sm_set_positive; [exact Hsm|].
  unfold contributes in Hc. apply andb_prop in Hc. destruct Hc as [_ Hc].
  apply Z.ltb_lt in Hc. pose proof (sm_get_nonneg sm (JStr (name_at ns (name_index g))) Hsm).
  lia.
Qed.

Lemma positive_nonneg (l : list (json * Z)) :
  positive_totals l -> Forall (fun v => 0 <= v) (map snd l).
Proof.
  intros H. apply Forall_map. eapply Forall_impl; [|exact H].
  simpl. intros a Ha. lia.
Qed.

(** C8: for a valid flamebearer (no negative name index or self-time, the
    self-times of all frames adding up to [numTicks] at most),
    [pyro_top_functions] returns, and the [self] values it returns add up
    to [numTicks] at most. *)
Theorem returned_self_within_ticks
  (pyro_render : string -> string -> string -> option json)
  (base_url service profile_id : string) (data : json)
  (ns : list string) (lvls : list (list Z)) (t n : Z) :
  pyro_render base_url profile_id service = Some data ->
  decodes_to data ns lvls t ->
  valid_flamebearer lvls t ->
  exists es,
    pyro_top_functions pyro_render base_url service profile_id n = Ok es /\
    sum (map self es) <= t.
Proof.
  intros Hfetch Hdec (Hidx & Hself & Hsum).
  unfold pyro_top_functions. rewrite Hfetch.
  rewrite (top_functions_decoded _ _ _ _ _ Hdec Hidx).
  assert (0 <= t) as Ht.
  { pose proof (sum_nonneg (map self_ticks (frames lvls))) as H.
    rewrite Forall_map in H. specialize (H Hself). lia. }
  destruct (t =? 0) eqn:Et.
  { exists []. split; [reflexivity|]. unfold sum. simpl. lia. }
  apply Z.eqb_neq in Et.
  set (sm := accumulate (contributions ns lvls) []).
  assert (positive_totals sm) as Hpos by (apply accumulate_positive; constructor).
  assert (sum (map snd sm) <= t) as Hsm.
  { unfold sm. rewrite sum_accumulate. unfold contributions.
    pose proof (sum_contributions_le ns (frames lvls) Hself).
    unfold sum at 1. simpl. lia. }
  destruct (slice_to_firstn (sorted sm) n) as [m Hm]. rewrite Hm.
  assert (Permutation (map snd (sorted sm)) (map snd sm)) as Hperm
    by apply Permutation_map, sorted_perm.
  assert (positive_totals (sorted sm)) as Hpos'.
  { eapply Permutation_Forall; [apply Permutation_sym, sorted_perm | exact Hpos]. }
  destruct (entries_returns (JInt t) (firstn m (sorted sm))) as [es Hes].
  - apply Forall_forall. intros [k v] Hin. cbn [snd].
    assert (In (k, v) (sorted sm)) as Hin'.
    { rewrite <- (firstn_skipn m (sorted sm)). apply in_or_app. left. exact Hin. }
    assert (0 < v) as Hv.
    { unfold positive_totals in Hpos'. rewrite Forall_forall in Hpos'.
      apply (Hpos' _ Hin'). }
    assert (v <= sum (map snd (sorted sm))) as Hle.
    { apply sum_In_le; [apply positive_nonneg, Hpos'|].
      change v with (snd (k, v)). apply in_map, Hin'. }
    rewrite (sum_perm _ _ Hperm) in Hle.
    destruct (percent_le_hundred v t (JInt t) eq_refl ltac:(lia)) as (p & Hp & _).
    exists p. exact Hp.
  - exists es. split; [exact Hes|].
    apply entries_items in Hes.
    replace (map self es) with (map snd (map item_of es))
      by (rewrite map_map; reflexivity).
    rewrite Hes, <- firstn_map.
    pose proof (sum_firstn_le m (map snd (sorted sm))
                  (positive_nonneg _ Hpos')) as Hle.
    rewrite (sum_perm _ _ Hperm) in Hle. lia.
Qed.

(** The first scenario: self-times 3 and 4 against 10 ticks. *)
Lemma returned_self_within_ticks_witness :
  exists es,
    pyro_top_functions
      (fun _ _ _ =>
         Some (flamebearer_payload ["a"; "b"] [[0; 10; 3; 0; 0; 7; 4; 1]] 10))
      "http://pyroscope:4040" "bank-api-gateway" "process_cpu" 2 = Ok es /\
    sum (map self es) <= 10.
Proof.
  refine (returned_self_within_ticks
    (fun _ _ _ =>
       Some (flamebearer_payload ["a"; "b"] [[0; 10; 3; 0; 0; 7; 4; 1]] 10))
    "http://pyroscope:4040" "bank-api-gateway" "process_cpu" _
    ["a"; "b"] [[0; 10; 3; 0; 0; 7; 4; 1]] 10 2
    eq_refl (flamebearer_payload_decodes _ _ _) _).
  split; [|split].
  - repeat constructor; discriminate.
  - repeat constructor; discriminate.
  - discriminate.
Defined.

(** ** The order of the ranking *)

Lemma firstn_In_inv {A : Type} (x : A) (m : nat) (l : list A) :
  In x (firstn m l) -> In x l.
Proof.
  intros H. rewrite <- (firstn_skipn m l). apply in_or_app. left. exact H.
Qed.

Lemma StronglySorted_firstn {A : Type} (R : A -> A -> Prop) (m : nat)
  (l : list A) :
  StronglySorted R l -> StronglySorted R (firstn m l).
Proof.
  intros H. revert m. induction H as [|a l Hl IH Ha]; intros [|m]; simpl;
    try constructor.
  - apply IH.
  - rewrite Forall_forall in *. intros x Hx. apply Ha.
    eapply firstn_In_inv, Hx.
Qed.

Lemma StronglySorted_items (es : list entry) :
  StronglySorted (fun a b => snd b <= snd a) (map item_of es) ->
  StronglySorted (fun e1 e2 => self e2 <= self e1) es.
Proof.
  induction es as [|e es IH]; intros H; [constructor|].
  simpl in H. inversion H as [|? ? Hs Hall]. subst.
  constructor; [apply IH, Hs|].
  rewrite Forall_map in Hall. exact Hall.
Qed.

(** C6: the ranking is sorted by aggregate self-time, largest first, and
    the sort is stable: of two returned functions with equal totals, the
    one returned first is the one first met when the levels are visited
    in order and each level is scanned from its start. *)
Theorem ranking_sorted_and_stable
  (pyro_render : string -> string -> string -> option json)
  (base_url service profile_id : string) (data : json)
  (ns : list string) (lvls : list (list Z)) (t n : Z) (es : list entry) :
  pyro_render base_url profile_id service = Some data ->
  decodes_to data ns lvls t ->
  indexes_from_zero lvls ->
  pyro_top_functions pyro_render base_url service profile_id n = Ok es ->
  StronglySorted (fun e1 e2 => self e2 <= self e1) es /\
  forall e1 e2,
    precedes e1 e2 es -> self e1 = self e2 ->
    exists n1 n2,
      function e1 = JStr n1 /\ function e2 = JStr n2 /\
      precedes n1 n2 (first_seen_order (map fst (contributions ns lvls))).
Proof.
  intros Hfetch Hdec Hidx Hes.
  unfold pyro_top_functions in Hes. rewrite Hfetch in Hes.
  rewrite (top_functions_decoded _ _ _ _ _ Hdec Hidx) in Hes.
  destruct (t =? 0).
  { injection Hes as <-. split; [constructor|].
    intros e1 e2 (l1 & l2 & l3 & H). destruct l1; discriminate. }
  apply entries_items in Hes.
  set (sm := accumulate (contributions ns lvls) []) in *.
  split.
  - apply StronglySorted_items. rewrite Hes.
    destruct (slice_to_firstn (sorted sm) n) as [m ->].
    apply StronglySorted_firstn, sorted_ranked.
  - intros e1 e2 Hprec Heq.
    apply (precedes_map item_of) in Hprec. rewrite Hes in Hprec.
    apply ranking_keeps_ties in Hprec; [|exact Heq].
    pose proof (precedes_In _ _ _ Hprec) as [H1 H2].
    destruct (item_of e1) as [k1 v1] eqn:E1.
    destruct (item_of e2) as [k2 v2] eqn:E2.
    apply accumulate_In in H1. destruct H1 as (n1 & -> & _).
    apply accumulate_In in H2. destruct H2 as (n2 & -> & _).
    exists n1, n2.
    unfold item_of in E1, E2. injection E1 as -> _. injection E2 as -> _.
    split; [reflexivity|]. split; [reflexivity|].
    apply precedes_map_JStr.
    rewrite <- keys_accumulate_nil.
    apply (precedes_map fst) in Hprec. exact Hprec.
Qed.

(** Three functions, [b] and [c] tied at 2: [b] is met first and is
    returned first. *)
Lemma ranking_sorted_and_stable_witness :
  StronglySorted (fun e1 e2 => self e2 <= self e1)
    [mk_entry (JStr "a") 3 (B64_of_Z 30); mk_entry (JStr "b") 2 (B64_of_Z 20);
     mk_entry (JStr "c") 2 (B64_of_Z 20)] /\
  forall e1 e2,
    precedes e1 e2
      [mk_entry (JStr "a") 3 (B64_of_Z 30); mk_entry (JStr "b") 2 (B64_of_Z 20);
       mk_entry (JStr "c") 2 (B64_of_Z 20)] ->
    self e1 = self e2 ->
    exists n1 n2,
      function e1 = JStr n1 /\ function e2 = JStr n2 /\
      precedes n1 n2
        (first_seen_order
           (map fst (contributions ["a"; "b"; "c"]
                       [[0; 10; 3; 0; 0; 7; 2; 1]; [0; 3; 1; 2; 0; 3; 1; 2]]))).
Proof.
  refine (ranking_sorted_and_stable
    (fun _ _ _ =>
       Some (flamebearer_payload ["a"; "b"; "c"]
               [[0; 10; 3; 0; 0; 7; 2; 1]; [0; 3; 1; 2; 0; 3; 1; 2]] 10))
    "http://pyroscope:4040" "bank-api-gateway" "process_cpu" _
    ["a"; "b"; "c"] [[0; 10; 3; 0; 0; 7; 2; 1]; [0; 3; 1; 2; 0; 3; 1; 2]] 10 5
    _ eq_refl (flamebearer_payload_decodes _ _ _) _ _).
  - repeat constructor; discriminate.
  - vm_compute. reflexivity.
Defined.

(** ** Name indexes out of range *)

Lemma frame_body_skips_high_index (names name_idx self_val : json)
  (len : nat) (idx : Z) (sm : self_map) :
  py_len names = Ok len -> as_int name_idx = Some idx ->
  Z.of_nat len <= idx ->
  frame_body names name_idx self_val sm = Ok sm.
Proof.
  intros Hlen Hidx Hle. unfold frame_body, py_lt.
  rewrite Hlen, Hidx. cbn [bind].
  replace (idx <? Z.of_nat len) with false by (symmetry; apply Z.ltb_ge; lia).
  reflexivity.
Qed.

(** C4, on the code: a group whose name index is [len(names)] or more is
    skipped, but the test [name_idx < len(names)] lets a negative index
    through.  With [names = ["a"]] and [levels = [[0,5,3,-2]]] the
    subscript [names[-2]] raises [IndexError]; with [names = ["a", "b"]]
    and [levels = [[0,5,3,-1]]] the self-time is counted for the last
    name, [b]. *)
Theorem negative_name_index_not_skipped :
  pyro_top_functions
    (fun _ _ _ => Some (flamebearer_payload ["a"] [[0; 5; 3; -2]] 5))
    "http://pyroscope:4040" "bank-api-gateway" "process_cpu" 5 =
  Raise IndexError /\
  pyro_top_functions
    (fun _ _ _ => Some (flamebearer_payload ["a"; "b"] [[0; 5; 3; -1]] 5))
    "http://pyroscope:4040" "bank-api-gateway" "process_cpu" 5 =
  Ok [mk_entry (JStr "b") 3 (B64_of_Z 60)] /\
  (forall names name_idx self_val len idx sm,
      py_len names = Ok len -> as_int name_idx = Some idx ->
      Z.of_nat len <= idx ->
      frame_body names name_idx self_val sm = Ok sm).
Proof.
  split; [vm_compute; reflexivity|]. split; [vm_compute; reflexivity|].
  intros. eapply frame_body_skips_high_index; eassumption.
Qed.

(** ** Failure paths *)

(** C9, on the code: a failed fetch and a payload without a flamebearer
    give the empty sequence, but a decoded payload of another shape raises
    past [pyro_top_functions]: a [null] flamebearer and a payload that is a
    JSON array raise [AttributeError], [levels] that is a number raises
    [TypeError], a level of four strings raises [TypeError], and a
    self-time too large for a double against [numTicks = 1] raises
    [OverflowError]. *)
Theorem malformed_payload_raises :
  (forall base_url service profile_id n,
      pyro_top_functions (fun _ _ _ => None) base_url service profile_id n =
      Ok []) /\
  (forall base_url service profile_id n,
      pyro_top_functions (fun _ _ _ => Some (JObj []))
        base_url service profile_id n = Ok []) /\
  (forall base_url service profile_id n,
      pyro_top_functions (fun _ _ _ => Some (JObj [("flamebearer", JNull)]))
        base_url service profile_id n = Raise AttributeError) /\
  (forall base_url service profile_id n,
      pyro_top_functions (fun _ _ _ => Some (JArr []))
        base_url service profile_id n = Raise AttributeError) /\
  (forall base_url service profile_id n,
      pyro_top_functions
        (fun _ _ _ =>
           Some (JObj [("flamebearer",
                        JObj [("levels", JInt 5); ("numTicks", JInt 1)])]))
        base_url service profile_id n = Raise TypeError) /\
  (forall base_url service profile_id n,
      pyro_top_functions
        (fun _ _ _ =>
           Some (JObj [("flamebearer",
                        JObj [("names", JArr [JStr "a"]);
                              ("levels",
                               JArr [JArr [JStr "0"; JStr "1"; JStr "1"; JStr "0"]]);
                              ("numTicks", JInt 1)])]))
        base_url service profile_id n = Raise TypeError) /\
  pyro_top_functions
    (fun _ _ _ => Some (flamebearer_payload ["a"] [[0; 1; 10 ^ 400; 0]] 1))
    "http://pyroscope:4040" "bank-api-gateway" "process_cpu" 5 =
  Raise OverflowError.
Proof.
  repeat split; intros; vm_compute; reflexivity.
Qed.

(** ** [prom_instant] *)

Lemma im_get_set (out : instant_map) (k : string) (v : spec_float) :
  im_get (im_set out k v) k = Some v.
Proof.
  induction out as [|[k1 v1] rest IH]; simpl.
  - rewrite String.eqb_refl. reflexivity.
  - destruct (String.eqb k k1) eqn:E; simpl; rewrite E; [reflexivity | exact IH].
Qed.

Lemma instant_rows_app (float_of_str : string -> option spec_float)
  (out out1 : instant_map) (rows1 rows2 : list json) :
  instant_rows float_of_str out rows1 = Ok out1 ->
  instant_rows float_of_str out (rows1 ++ rows2) =
  instant_rows float_of_str out1 rows2.
Proof.
  revert out. induction rows1 as [|r rows1 IH]; intros out H; simpl in *.
  - injection H as <-. reflexivity.
  - destruct (instant_row float_of_str out r) as [out'|]; [|discriminate].
    cbn [bind] in *. apply IH, H.
Qed.

(** C10: a result row whose metric has no [instance] label is not
    skipped: its value is stored under the key ["unknown"].  With the rows
    before it processed into [out0], the loop goes on from
    [out0["unknown"] = value], and when the row is the last one
    [prom_instant] returns a mapping that holds the value under
    ["unknown"]. *)
Theorem prom_instant_unknown_instance
  (float_of_str : string -> option spec_float)
  (fetch_query : string -> string -> option json)
  (base_url expr : string) (before after : list json) (r : json)
  (metric : list (string * json)) (v : spec_float) (out0 : instant_map) :
  prom_query fetch_query base_url expr = Ok (JArr (before ++ r :: after)) ->
  instant_rows float_of_str [] before = Ok out0 ->
  dict_item r "metric" = Ok (JObj metric) ->
  assoc "instance" metric = None ->
  row_value float_of_str r = Ok v ->
  instant_row float_of_str out0 r = Ok (im_set out0 "unknown" v) /\
  prom_instant float_of_str fetch_query base_url expr =
    instant_rows float_of_str (im_set out0 "unknown" v) after /\
  (after = [] ->
   exists out,
     prom_instant float_of_str fetch_query base_url expr = Ok out /\
     im_get out "unknown" = Some v).
Proof.
  intros Hquery Hbefore Hmetric Hlabel Hvalue.
  assert (instant_row float_of_str out0 r = Ok (im_set out0 "unknown" v))
    as Hrow.
  { unfold instant_row. rewrite Hmetric. cbn [bind dict_get].
    rewrite Hlabel. cbn [bind py_split_first]. rewrite Hvalue. reflexivity. }
  assert (prom_instant float_of_str fetch_query base_url expr =
          instant_rows float_of_str (im_set out0 "unknown" v) after) as Hrun.
  { unfold prom_instant. rewrite Hquery. cbn [bind py_iter].
    rewrite (instant_rows_app _ _ _ _ _ Hbefore).
    cbn [instant_rows]. rewrite Hrow. reflexivity. }
  split; [exact Hrow|]. split; [exact Hrun|].
  intros ->. exists (im_set out0 "unknown" v).
  split; [exact Hrun | apply im_get_set].
Qed.

(** One row with a [job] label only and the value ["0.25"]. *)
Lemma prom_instant_unknown_instance_witness :
  prom_instant
    (fun s => if String.eqb s "0.25" then Some (S754_finite false 1 (-2)) else None)
    (fun _ _ =>
       Some (JObj [("status", JStr "success");
                   ("data",
                    JObj [("resultType", JStr "vector");
                          ("result",
                           JArr [JObj [("metric", JObj [("job", JStr "jvm")]);
                                       ("value", JArr [JInt 1700000000;
                                                       JStr "0.25"])]])])]))
    "http://prometheus:9090" "jvm_threads_live" =
  Ok [("unknown", S754_finite false 1 (-2))].
Proof.
  refine (proj1 (proj2 (prom_instant_unknown_instance
    (fun s => if String.eqb s "0.25" then Some (S754_finite false 1 (-2)) else None)
    (fun _ _ =>
       Some (JObj [("status", JStr "success");
                   ("data",
                    JObj [("resultType", JStr "vector");
                          ("result",
                           JArr [JObj [("metric", JObj [("job", JStr "jvm")]);
                                       ("value", JArr [JInt 1700000000;
                                                       JStr "0.25"])]])])]))
    "http://prometheus:9090" "jvm_threads_live"
    [] [] _ [("job", JStr "jvm")] (S754_finite false 1 (-2)) []
    eq_refl eq_refl eq_refl eq_refl eq_refl))).
Defined.

(** * Further properties of the clients *)

(** ** The exceptions of [pyro_top_functions] *)

Lemma frame_body_escapes (names name_idx self_val : json) (sm : self_map)
  (e : exn) :
  frame_body names name_idx self_val sm = Raise e -> may_escape e = true.
Proof.
  unfold frame_body, py_len, py_lt, py_gt, py_subscript, py_getitem,
    seq_item, dict_item, bind.
  break_matches; intros [= <-]; reflexivity.
Qed.

Lemma frame_escapes (names level : json) (i : nat) (sm : self_map) (e : exn) :
  frame names level i sm = Raise e -> may_escape e = true.
Proof.
  unfold frame.
  destruct (py_getitem level (Z.of_nat i + 3)) as [name_idx|e1] eqn:H1;
    cbn [bind].
  - destruct (py_getitem level (Z.of_nat i + 2)) as [self_val|e2] eqn:H2;
      cbn [bind]; [apply frame_body_escapes|].
    intros [= <-]. revert H2. unfold py_getitem, seq_item.
    break_matches; intros [= <-]; reflexivity.
  - intros [= <-]. revert H1. unfold py_getitem, seq_item.
    break_matches; intros [= <-]; reflexivity.
Qed.

Lemma scan_level_escapes (names level : json) (i : nat) (sm : self_map)
  (e : exn) :
  scan_level names level i sm = Raise e -> may_escape e = true.
Proof.
  remember (size_of level - i)%nat as k eqn:Hk.
  revert i sm Hk. induction k as [k IH] using lt_wf_ind. intros i sm Hk.
  rewrite scan_level_step.
  destruct (py_len level) as [len|e1] eqn:Hlen.
  - destruct (i + 3 <? len)%nat eqn:Hlt; [|discriminate].
    apply Nat.ltb_lt in Hlt.
    destruct (frame names level i sm) as [sm1|e1] eqn:Hf.
    + apply (IH (size_of level - (i + 4))%nat); [|reflexivity].
      unfold size_of in *. rewrite Hlen in *. lia.
    + intros [= <-]. exact (frame_escapes _ _ _ _ _ Hf).
  - intros [= <-]. destruct level; simpl in Hlen; inversion Hlen; reflexivity.
Qed.

Lemma scan_levels_escapes (names : json) (levels : list json)
  (sm : self_map) (e : exn) :
  scan_levels names levels sm = Raise e -> may_escape e = true.
Proof.
  revert sm. induction levels as [|level rest IH]; intros sm; simpl.
  - discriminate.
  - destruct (scan_level names level 0 sm) as [sm1|e1] eqn:H1; cbn [bind].
    + apply IH.
    + intros [= <-]. exact (scan_level_escapes _ _ _ _ _ H1).
Qed.

Lemma round_escapes (x : spec_float) (e : exn) :
  py_round1 x = Raise e -> e = OverflowError.
Proof.
  unfold py_round1. break_matches; intros [= <-]; reflexivity.
Qed.

(** [round(val / total * 100, 1)] with a [total] that is not zero raises a
    [TypeError] when [total] is no number and an [OverflowError] when the
    quotient does not fit a double. *)
Lemma percent_escapes (val : Z) (total : json) (e : exn) :
  py_eq_zero total = false -> percent val total = Raise e ->
  e = OverflowError \/ (e = TypeError /\ as_int total = None).
Proof.
  unfold py_eq_zero, percent, py_truediv, int_truediv.
  destruct (as_int total) as [t|]; [|intros _ [= <-]; right; auto].
  intros ->.
  destruct (round_binary64 _ _ _) eqn:Hr; cbn [bind];
    try (intros [= <-]; left; reflexivity);
    intros H; left; exact (round_escapes _ _ H).
Qed.

Lemma entries_escapes (total : json) (top : list (json * Z)) (e : exn) :
  py_eq_zero total = false -> entries total top = Raise e ->
  e = OverflowError \/ (e = TypeError /\ as_int total = None).
Proof.
  intros Hzero. induction top as [|[name val] rest IH]; cbn [entries].
  - discriminate.
  - destruct (percent val total) as [p|e1] eqn:Hp; cbn [bind].
    + destruct (entries total rest) as [es|e1]; cbn [bind];
        [discriminate | exact IH].
    + intros [= <-]. exact (percent_escapes _ _ _ Hzero Hp).
Qed.

(** X1: whatever the fetched payload and [n], the only exceptions that come
    out of [pyro_top_functions] are [AttributeError], [TypeError],
    [IndexError], [KeyError] and [OverflowError]: it never divides by
    zero. *)
Theorem top_functions_escapes
  (pyro_render : string -> string -> string -> option json)
  (base_url service profile_id : string) (n : Z) (e : exn) :
  pyro_top_functions pyro_render base_url service profile_id n = Raise e ->
  may_escape e = true.
Proof.
  unfold pyro_top_functions.
  destruct (pyro_render base_url profile_id service) as [data|];
    [|discriminate].
  unfold top_functions_of.
  destruct (dict_get data "flamebearer" (JObj [])) as [fb|e1] eqn:H1;
    cbn [bind];
    [|intros [= <-]; rewrite (dict_get_raises _ _ _ _ H1); reflexivity].
  destruct (dict_get fb "names" (JArr [])) as [names|e1] eqn:H2;
    cbn [bind];
    [|intros [= <-]; rewrite (dict_get_raises _ _ _ _ H2); reflexivity].
  destruct (dict_get fb "levels" (JArr [])) as [levels|e1] eqn:H3;
    cbn [bind];
    [|intros [= <-]; rewrite (dict_get_raises _ _ _ _ H3); reflexivity].
  destruct (dict_get fb "numTicks" (JInt 0)) as [total|e1] eqn:H4;
    cbn [bind];
    [|intros [= <-]; rewrite (dict_get_raises _ _ _ _ H4); reflexivity].
  destruct (py_eq_zero total) eqn:Hzero; [discriminate|].
  destruct (py_iter levels) as [levels'|e1] eqn:H5;
    cbn [bind];
    [|intros [= <-]; rewrite (py_iter_raises _ _ H5); reflexivity].
  destruct (scan_levels names levels' []) as [sm|e1] eqn:H6; cbn [bind].
  - intros H. destruct (entries_escapes _ _ _ Hzero H) as [->|[-> _]];
      reflexivity.
  - intros [= <-]. exact (scan_levels_escapes _ _ _ _ H6).
Qed.

(** A [null] flamebearer: the [AttributeError] of [fb.get]. *)
Lemma top_functions_escapes_witness :
  pyro_top_functions (fun _ _ _ => Some (JObj [("flamebearer", JNull)]))
    "http://pyroscope:4040" "bank-api-gateway" "process_cpu" 5 =
    Raise AttributeError /\
  may_escape AttributeError = true.
Proof.
  split; [reflexivity|].
  exact (top_functions_escapes
    (fun _ _ _ => Some (JObj [("flamebearer", JNull)]))
    "http://pyroscope:4040" "bank-api-gateway" "process_cpu" 5
    AttributeError eq_refl).
Defined.

(** ** The fields the loop reads *)

Lemma fold_groups_fields (names : json)
  (gs gs' : list (json * json * json * json)) (sm : self_map) :
  map (fun g => (snd (fst g), snd g)) gs =
  map (fun g => (snd (fst g), snd g)) gs' ->
  fold_groups names gs sm = fold_groups names gs' sm.
Proof.
  revert gs' sm. induction gs as [|[[[o tt] s] idx] gs IH];
    intros [|[[[o' tt'] s'] idx'] gs'] sm H; try discriminate.
  - reflexivity.
  - simpl in H. injection H as -> -> H. cbn [fold_groups].
    destruct (frame_body names idx' s' sm); cbn [bind]; [apply IH, H|].
    reflexivity.
Qed.

Lemma groups_same_fields (l l' : list json) :
  same_self_and_index l l' ->
  map (fun g => (snd (fst g), snd g)) (groups l) =
  map (fun g => (snd (fst g), snd g)) (groups l').
Proof.
  remember (List.length l) as k eqn:Hk. revert l l' Hk.
  induction k as [k IH] using lt_wf_ind. intros l l' Hk [Hlen Hsame].
  destruct (Nat.lt_ge_cases (List.length l) 4) as [Hshort|Hlong].
  - rewrite (groups_short l), (groups_short l') by lia. reflexivity.
  - destruct l as [|a [|b [|c [|d rest]]]]; simpl in Hlong; try lia.
    destruct l' as [|a' [|b' [|c' [|d' rest']]]]; simpl in Hlen; try lia.
    pose proof (Hsame 2%nat (or_introl eq_refl)) as Hc.
    pose proof (Hsame 3%nat (or_intror eq_refl)) as Hd.
    simpl in Hc, Hd. injection Hc as ->. injection Hd as ->.
    cbn [groups map fst snd]. f_equal.
    apply (IH (List.length rest)); [simpl in Hk; lia | reflexivity |].
    split; [lia|].
    intros i Hi. apply (Hsame (4 + i)%nat).
    replace ((4 + i) mod 4)%nat with (i mod 4)%nat; [exact Hi|].
    replace (4 + i)%nat with (i + 1 * 4)%nat by lia.
    symmetry. apply Nat.Div0.mod_add.
Qed.

Lemma scan_levels_same_fields (names : json) (lvls lvls' : list (list json))
  (sm : self_map) :
  Forall2 same_self_and_index lvls lvls' ->
  scan_levels names (map JArr lvls) sm = scan_levels names (map JArr lvls') sm.
Proof.
  intros H. revert sm. induction H as [|l l' lvls lvls' Hl _ IH]; intros sm.
  - reflexivity.
  - cbn [map scan_levels]. rewrite !scan_level_from. cbn [skipn].
    rewrite (fold_groups_fields names _ _ sm (groups_same_fields _ _ Hl)).
    destruct (fold_groups names (groups l') sm); cbn [bind];
      [apply IH | reflexivity].
Qed.

(** X2: only the third field ([self_ticks]) and the fourth ([name_index])
    of a frame group are read.  Two payloads whose levels have the same
    lengths and the same values at the offsets [4k + 2] and [4k + 3] give
    the same result, whatever their [offset] and [total_ticks] fields
    hold. *)
Theorem top_functions_ignores_offset_and_total
  (pyro_render pyro_render' : string -> string -> string -> option json)
  (base_url service profile_id : string) (n : Z)
  (names total : json) (lvls lvls' : list (list json)) :
  pyro_render base_url profile_id service =
    Some (payload_of names (JArr (map JArr lvls)) total) ->
  pyro_render' base_url profile_id service =
    Some (payload_of names (JArr (map JArr lvls')) total) ->
  Forall2 same_self_and_index lvls lvls' ->
  pyro_top_functions pyro_render base_url service profile_id n =
  pyro_top_functions pyro_render' base_url service profile_id n.
Proof.
  intros H1 H2 Hsame. unfold pyro_top_functions. rewrite H1, H2.
  unfold top_functions_of, payload_of. cbn [dict_get assoc String.eqb bind].
  simpl. destruct (py_eq_zero total); [reflexivity|].
  rewrite (scan_levels_same_fields names lvls lvls' [] Hsame). reflexivity.
Qed.

(** One group with the offsets [0, 10] and with [99, 1]. *)
Lemma top_functions_ignores_offset_and_total_witness :
  pyro_top_functions
    (fun _ _ _ =>
       Some (payload_of (JArr [JStr "a"])
               (JArr (map JArr [[JInt 0; JInt 10; JInt 3; JInt 0]])) (JInt 10)))
    "http://pyroscope:4040" "bank-api-gateway" "process_cpu" 5 =
  pyro_top_functions
    (fun _ _ _ =>
       Some (payload_of (JArr [JStr "a"])
               (JArr (map JArr [[JInt 99; JInt 1; JInt 3; JInt 0]])) (JInt 10)))
    "http://pyroscope:4040" "bank-api-gateway" "process_cpu" 5.
Proof.
  refine (top_functions_ignores_offset_and_total _ _
    "http://pyroscope:4040" "bank-api-gateway" "process_cpu" 5
    (JArr [JStr "a"]) (JInt 10)
    [[JInt 0; JInt 10; JInt 3; JInt 0]] [[JInt 99; JInt 1; JInt 3; JInt 0]]
    eq_refl eq_refl _).
  constructor; [|constructor].
  split; [reflexivity|].
  intros [|[|[|[|i]]]] H; simpl in *; try reflexivity.
  - destruct H; discriminate.
  - destruct H; discriminate.
Defined.

(** ** The size of the result *)

(** X3: for [0 <= n <= m], the top [n] is the first [n] entries of the top
    [m]: when [pyro_top_functions] returns for [m] it returns for [n], with
    that prefix, and so with [n] entries at most. *)
Theorem top_n_is_prefix
  (pyro_render : string -> string -> string -> option json)
  (base_url service profile_id : string) (n m : Z) (es : list entry) :
  0 <= n <= m ->
  pyro_top_functions pyro_render base_url service profile_id m = Ok es ->
  pyro_top_functions pyro_render base_url service profile_id n =
    Ok (firstn (Z.to_nat n) es) /\
  Z.of_nat (List.length (firstn (Z.to_nat n) es)) <= n.
Proof.
  intros Hnm Hes. split.
  2:{ rewrite length_firstn. lia. }
  unfold pyro_top_functions in *.
  destruct (pyro_render base_url profile_id service) as [data|].
  2:{ injection Hes as <-. destruct (Z.to_nat n); reflexivity. }
  destruct (top_functions_of_shape data)
    as [(e & Hr) | [Hnil | (total & sm & _ & _ & _ & Hr)]].
  - rewrite Hr in Hes. discriminate.
  - rewrite Hnil in *. injection Hes as <-. destruct (Z.to_nat n); reflexivity.
  - rewrite Hr in *. unfold slice_to in *.
    replace (m <? 0) with false in Hes by (symmetry; apply Z.ltb_ge; lia).
    replace (n <? 0) with false by (symmetry; apply Z.ltb_ge; lia).
    replace (firstn (Z.to_nat n) (sorted sm))
      with (firstn (Z.to_nat n) (firstn (Z.to_nat m) (sorted sm))).
    + apply entries_firstn, Hes.
    + rewrite firstn_firstn. f_equal. lia.
Qed.

(** The first scenario: the top 1 out of the top 2. *)
Lemma top_n_is_prefix_witness :
  pyro_top_functions
    (fun _ _ _ =>
       Some (flamebearer_payload ["a"; "b"] [[0; 10; 3; 0; 0; 7; 4; 1]] 10))
    "http://pyroscope:4040" "bank-api-gateway" "process_cpu" 1 =
  Ok [mk_entry (JStr "b") 4 (B64_of_Z 40)].
Proof.
  refine (proj1 (top_n_is_prefix
    (fun _ _ _ =>
       Some (flamebearer_payload ["a"; "b"] [[0; 10; 3; 0; 0; 7; 4; 1]] 10))
    "http://pyroscope:4040" "bank-api-gateway" "process_cpu" 1 2
    [mk_entry (JStr "b") 4 (B64_of_Z 40); mk_entry (JStr "a") 3 (B64_of_Z 30)]
    _ _)).
  - lia.
  - vm_compute. reflexivity.
Defined.

(** ** Missing sections *)

Lemma slice_to_nil {A : Type} (n : Z) : slice_to (@nil A) n = [].
Proof. unfold slice_to. destruct (n <? 0); apply firstn_nil. Qed.

(** X4: a payload object without a [flamebearer], a flamebearer without
    [numTicks], and a flamebearer without [levels] or with no level each
    give the empty sequence, whatever the other keys hold. *)
Theorem missing_section_returns_empty
  (pyro_render : string -> string -> string -> option json)
  (base_url service profile_id : string) (n : Z)
  (fields : list (string * json)) :
  pyro_render base_url profile_id service = Some (JObj fields) ->
  assoc "flamebearer" fields = None \/
  (exists fb,
      assoc "flamebearer" fields = Some (JObj fb) /\
      (assoc "numTicks" fb = None \/ assoc "levels" fb = None \/
       assoc "levels" fb = Some (JArr []))) ->
  pyro_top_functions pyro_render base_url service profile_id n = Ok [].
Proof.
  intros Hfetch H. unfold pyro_top_functions. rewrite Hfetch.
  unfold top_functions_of. cbn [dict_get].
  destruct H as [Hnone | (fb & Hfb & H)].
  - rewrite Hnone. reflexivity.
  - rewrite Hfb. cbn [bind dict_get].
    assert (forall names total,
               (if py_eq_zero total then Ok []
                else levels' <- py_iter (JArr []) ;;
                     sm <- scan_levels names levels' [] ;;
                     entries total (slice_to (sorted sm) n)) = Ok [])
      as Hempty.
    { intros names total. destruct (py_eq_zero total); [reflexivity|].
      cbn [py_iter bind scan_levels sorted fold_right].
      rewrite slice_to_nil. reflexivity. }
    destruct H as [Ht | [Hl | Hl]].
    + rewrite Ht.
      destruct (assoc "names" fb); destruct (assoc "levels" fb); reflexivity.
    + rewrite Hl.
      destruct (assoc "names" fb); destruct (assoc "numTicks" fb);
        cbn [bind]; apply Hempty.
    + rewrite Hl.
      destruct (assoc "names" fb); destruct (assoc "numTicks" fb);
        cbn [bind]; apply Hempty.
Qed.

(** A flamebearer with names and ticks and no [levels] key. *)
Lemma missing_section_returns_empty_witness :
  pyro_top_functions
    (fun _ _ _ =>
       Some (JObj [("flamebearer",
                    JObj [("names", JArr [JStr "a"]); ("numTicks", JInt 7)])]))
    "http://pyroscope:4040" "bank-api-gateway" "process_cpu" 5 = Ok [].
Proof.
  refine (missing_section_returns_empty _
    "http://pyroscope:4040" "bank-api-gateway" "process_cpu" 5
    [("flamebearer", JObj [("names", JArr [JStr "a"]); ("numTicks", JInt 7)])]
    eq_refl _).
  right. eexists. split; [reflexivity|]. right. left. reflexivity.
Defined.

(** ** Payloads of the documented shape *)

(** X5: on a payload of the documented shape without a negative name
    index, [pyro_top_functions] returns unless a quotient [val / total] is
    too large for a double: [OverflowError] is the only exception. *)
Theorem documented_shape_raises_only_overflow
  (pyro_render : string -> string -> string -> option json)
  (base_url service profile_id : string) (data : json)
  (ns : list string) (lvls : list (list Z)) (t n : Z) :
  pyro_render base_url profile_id service = Some data ->
  decodes_to data ns lvls t ->
  indexes_from_zero lvls ->
  (exists es,
      pyro_top_functions pyro_render base_url service profile_id n = Ok es) \/
  pyro_top_functions pyro_render base_url service profile_id n =
    Raise OverflowError.
Proof.
  intros Hfetch Hdec Hidx. unfold pyro_top_functions. rewrite Hfetch.
  rewrite (top_functions_decoded _ _ _ _ _ Hdec Hidx).
  destruct (t =? 0) eqn:Et; [left; eexists; reflexivity|].
  destruct (entries (JInt t) _) as [es|e] eqn:He; [left; eexists; reflexivity|].
  right. apply entries_escapes in He.
  - destruct He as [->|[_ Habs]]; [reflexivity | discriminate].
  - unfold py_eq_zero. simpl. exact Et.
Qed.

(** A self-time of [10 ^ 400] against one tick. *)
Lemma documented_shape_raises_only_overflow_witness :
  (exists es,
      pyro_top_functions
        (fun _ _ _ => Some (flamebearer_payload ["a"] [[0; 1; 10 ^ 400; 0]] 1))
        "http://pyroscope:4040" "bank-api-gateway" "process_cpu" 5 = Ok es) \/
  pyro_top_functions
    (fun _ _ _ => Some (flamebearer_payload ["a"] [[0; 1; 10 ^ 400; 0]] 1))
    "http://pyroscope:4040" "bank-api-gateway" "process_cpu" 5 =
  Raise OverflowError.
Proof.
  refine (documented_shape_raises_only_overflow _
    "http://pyroscope:4040" "bank-api-gateway" "process_cpu" _
    ["a"] [[0; 1; 10 ^ 400; 0]] 1 5
    eq_refl (flamebearer_payload_decodes _ _ _) _).
  repeat constructor; discriminate.
Defined.

(** ** The functions returned *)

Lemma fold_remember_In (name : string) (ks seen : list string) :
  In name (fold_left remember_key ks seen) <-> In name seen \/ In name ks.
Proof.
  revert seen. induction ks as [|a ks IH]; intros seen; simpl.
  - tauto.
  - rewrite IH. unfold remember_key.
    destruct (existsb (String.eqb a) seen) eqn:E.
    + apply existsb_eqb_In in E. split; [tauto|].
      intros [H | [<- | H]]; auto.
    + rewrite in_app_iff. simpl. tauto.
Qed.

(** A name is in the first-met order when some contribution names it. *)
Lemma first_seen_order_In (name : string) (ks : list string) :
  In name (first_seen_order ks) <-> In name ks.
Proof. unfold first_seen_order. rewrite fold_remember_In. simpl. tauto. Qed.

Lemma contributions_In (ns : list string) (lvls : list (list Z))
  (name : string) :
  In name (map fst (contributions ns lvls)) <->
  exists g, In g (frames lvls) /\ contributes ns g = true /\
            name_at ns (name_index g) = name.
Proof.
  unfold contributions, group_contributions. rewrite map_map. cbn [fst].
  rewrite in_map_iff. split.
  - intros (g & <- & Hg). apply filter_In in Hg. exists g. tauto.
  - intros (g & Hg & Hc & <-). exists g. split; [reflexivity|].
    apply filter_In. tauto.
Qed.

Lemma sorted_length (l : list (json * Z)) :
  List.length (sorted l) = List.length l.
Proof. apply Permutation_length, sorted_perm. Qed.

(** X6: on a payload of the documented shape with [numTicks] other than 0
    and [n >= 0], the functions returned are the names some frame with a
    positive self-time and a name index below [len(names)] refers to: the
    result has [min(n, number of such names)] entries, and when [n] is
    that number or more it holds each of them once. *)
Theorem returned_functions_are_the_contributors
  (pyro_render : string -> string -> string -> option json)
  (base_url service profile_id : string) (data : json)
  (ns : list string) (lvls : list (list Z)) (t n : Z) (es : list entry) :
  pyro_render base_url profile_id service = Some data ->
  decodes_to data ns lvls t ->
  indexes_from_zero lvls ->
  t <> 0 -> 0 <= n ->
  pyro_top_functions pyro_render base_url service profile_id n = Ok es ->
  List.length es =
    Nat.min (Z.to_nat n)
      (List.length (first_seen_order (map fst (contributions ns lvls)))) /\
  (forall name,
      In name (first_seen_order (map fst (contributions ns lvls))) <->
      exists g, In g (frames lvls) /\ contributes ns g = true /\
                name_at ns (name_index g) = name) /\
  ((List.length (first_seen_order (map fst (contributions ns lvls)))
    <= Z.to_nat n)%nat ->
   Permutation (map function es)
     (map JStr (first_seen_order (map fst (contributions ns lvls))))).
Proof.
  intros Hfetch Hdec Hidx Ht Hn Hes.
  unfold pyro_top_functions in Hes. rewrite Hfetch in Hes.
  rewrite (top_functions_decoded _ _ _ _ _ Hdec Hidx) in Hes.
  replace (t =? 0) with false in Hes by (symmetry; apply Z.eqb_neq, Ht).
  apply entries_items in Hes. unfold slice_to in Hes.
  replace (n <? 0) with false in Hes by (symmetry; apply Z.ltb_ge; lia).
  set (sm := accumulate (contributions ns lvls) []) in *.
  assert (List.length (sorted sm) =
          List.length (first_seen_order (map fst (contributions ns lvls))))
    as Hlen.
  { rewrite sorted_length.
    rewrite <- (length_map fst sm). unfold sm.
    rewrite keys_accumulate_nil. apply length_map. }
  split; [|split].
  - rewrite <- (length_map item_of es), Hes, length_firstn, Hlen. reflexivity.
  - intros name. rewrite first_seen_order_In. apply contributions_In.
  - intros Hall. rewrite firstn_all2 in Hes by lia.
    replace (map function es) with (map fst (map item_of es))
      by (rewrite map_map; reflexivity).
    rewrite Hes. unfold sm at 1. rewrite <- keys_accumulate_nil.
    apply Permutation_map, sorted_perm.
Qed.

(** The first scenario with [n = 5]: both functions are returned. *)
Lemma returned_functions_are_the_contributors_witness :
  List.length
    [mk_entry (JStr "b") 4 (B64_of_Z 40); mk_entry (JStr "a") 3 (B64_of_Z 30)] =
  Nat.min (Z.to_nat 5)
    (List.length
       (first_seen_order
          (map fst (contributions ["a"; "b"] [[0; 10; 3; 0; 0; 7; 4; 1]])))).
Proof.
  refine (proj1 (returned_functions_are_the_contributors
    (fun _ _ _ =>
       Some (flamebearer_payload ["a"; "b"] [[0; 10; 3; 0; 0; 7; 4; 1]] 10))
    "http://pyroscope:4040" "bank-api-gateway" "process_cpu" _
    ["a"; "b"] [[0; 10; 3; 0; 0; 7; 4; 1]] 10 5 _
    eq_refl (flamebearer_payload_decodes _ _ _) _ _ _ _)).
  - repeat constructor; discriminate.
  - discriminate.
  - discriminate.
  - vm_compute. reflexivity.
Defined.

(** ** The order of the levels *)

Lemma filter_perm {A : Type} (f : A -> bool) (l l' : list A) :
  Permutation l l' -> Permutation (filter f l) (filter f l').
Proof.
  induction 1 as [|x l l' _ IH|x y l|l l' l'' _ IH1 _ IH2]; simpl.
  - constructor.
  - destruct (f x); [apply perm_skip|]; exact IH.
  - destruct (f x), (f y);
      try apply perm_swap; apply Permutation_refl.
  - eapply perm_trans; eassumption.
Qed.

Lemma contributions_perm (ns : list string) (lvls lvls' : list (list Z)) :
  Permutation lvls lvls' ->
  Permutation (contributions ns lvls) (contributions ns lvls').
Proof.
  intros H. unfold contributions, group_contributions, frames.
  apply Permutation_map, filter_perm, Permutation_flat_map, H.
Qed.

Lemma total_for_perm (name : string) (cs cs' : list (string * Z)) :
  Permutation cs cs' -> total_for name cs = total_for name cs'.
Proof.
  intros H. unfold total_for. apply sum_perm.
  apply Permutation_map, filter_perm, H.
Qed.

Lemma accumulate_In_total (cs : list (string * Z)) (name : string) :
  In name (map fst cs) ->
  In (JStr name, total_for name cs) (accumulate cs []).
Proof.
  intros Hname.
  assert (In (JStr name) (map fst (accumulate cs []))) as Hk.
  { rewrite keys_accumulate_nil. apply in_map, first_seen_order_In, Hname. }
  apply in_map_iff in Hk. destruct Hk as ([k v] & Hkey & Hin).
  simpl in Hkey. subst k.
  destruct (accumulate_In _ _ _ Hin) as (name' & Heq & Hv & _).
  injection Heq as <-. rewrite <- Hv. exact Hin.
Qed.

(** The accumulators of two orders of the same contributions hold the same
    items. *)
Lemma accumulate_perm (cs cs' : list (string * Z)) :
  Permutation cs cs' ->
  Permutation (accumulate cs []) (accumulate cs' []).
Proof.
  intros H.
  assert (forall a b : list (string * Z),
             Permutation a b ->
             forall x, In x (accumulate a []) -> In x (accumulate b [])) as Hsub.
  { intros a b Hab [k v] Hin.
    destruct (accumulate_In _ _ _ Hin) as (name & -> & -> & Hname).
    rewrite (total_for_perm name a b Hab).
    apply accumulate_In_total.
    eapply Permutation_in; [apply Permutation_map, Hab | exact Hname]. }
  apply NoDup_Permutation.
  - eapply NoDup_map_inv, accumulate_keys_NoDup.
  - eapply NoDup_map_inv, accumulate_keys_NoDup.
  - intros x. split; apply Hsub; [exact H | apply Permutation_sym, H].
Qed.

Lemma entries_entry_of (total : json) (top : list (json * Z)) (es : list entry) :
  entries total top = Ok es -> es = map (entry_of total) top.
Proof.
  revert es. induction top as [|[name val] rest IH]; intros es H.
  - injection H as <-. reflexivity.
  - cbn [entries] in H.
    destruct (percent val total) as [p|] eqn:Ep; [|discriminate].
    cbn [bind] in H.
    destruct (entries total rest) as [es'|]; [|discriminate]. cbn [bind] in H.
    injection H as <-. cbn [map]. rewrite <- (IH es' eq_refl).
    unfold entry_of. cbn [fst snd]. rewrite Ep. reflexivity.
Qed.

Lemma entries_percent_ok (total : json) (top : list (json * Z))
  (es : list entry) :
  entries total top = Ok es ->
  Forall (fun kv => exists p, percent (snd kv) total = Ok p) top.
Proof.
  revert es. induction top as [|[name val] rest IH]; intros es H.
  - constructor.
  - cbn [entries] in H.
    destruct (percent val total) as [p|] eqn:Ep; [|discriminate].
    cbn [bind] in H.
    destruct (entries total rest) as [es'|]; [|discriminate].
    constructor; [exists p; exact Ep | apply (IH es' eq_refl)].
Qed.

(** X7: the order of the levels matters for ties only.  Two payloads of the
    documented shape whose levels are the same in another order, asked for
    at least as many functions as contribute, return the same entries, in
    an order that may differ. *)
Theorem level_order_permutes_result
  (pyro_render pyro_render' : string -> string -> string -> option json)
  (base_url service profile_id : string) (data data' : json)
  (ns : list string) (lvls lvls' : list (list Z)) (t n : Z)
  (es : list entry) :
  pyro_render base_url profile_id service = Some data ->
  pyro_render' base_url profile_id service = Some data' ->
  decodes_to data ns lvls t ->
  decodes_to data' ns lvls' t ->
  Permutation lvls lvls' ->
  indexes_from_zero lvls ->
  (List.length (first_seen_order (map fst (contributions ns lvls)))
   <= Z.to_nat n)%nat ->
  pyro_top_functions pyro_render base_url service profile_id n = Ok es ->
  exists es',
    pyro_top_functions pyro_render' base_url service profile_id n = Ok es' /\
    Permutation es es'.
Proof.
  intros Hfetch Hfetch' Hdec Hdec' Hperm Hidx Hn Hes.
  assert (indexes_from_zero lvls') as Hidx'.
  { unfold indexes_from_zero, frames in *.
    eapply Permutation_Forall; [apply Permutation_flat_map, Hperm | exact Hidx]. }
  unfold pyro_top_functions in *. rewrite Hfetch in Hes. rewrite Hfetch'.
  rewrite (top_functions_decoded _ _ _ _ _ Hdec Hidx) in Hes.
  rewrite (top_functions_decoded _ _ _ _ _ Hdec' Hidx').
  destruct (t =? 0).
  { injection Hes as <-. exists []. split; [reflexivity | constructor]. }
  pose proof (accumulate_perm _ _ (contributions_perm ns _ _ Hperm)) as Hsm.
  set (sm := accumulate (contributions ns lvls) []) in *.
  set (sm' := accumulate (contributions ns lvls') []) in *.
  assert (List.length sm <= Z.to_nat n)%nat as Hlen.
  { rewrite <- (length_map fst sm). unfold sm.
    rewrite keys_accumulate_nil, length_map. exact Hn. }
  assert (forall l : list (json * Z),
             (List.length l <= Z.to_nat n)%nat ->
             slice_to (sorted l) n = sorted l) as Hall.
  { intros l Hl. unfold slice_to.
    destruct (n <? 0) eqn:En.
    - apply Z.ltb_lt in En.
      destruct l as [|x l]; [reflexivity | simpl in Hl; lia].
    - apply firstn_all2. rewrite sorted_length. exact Hl. }
  rewrite Hall in Hes by exact Hlen.
  rewrite Hall by (rewrite <- (Permutation_length Hsm); exact Hlen).
  assert (Permutation (sorted sm) (sorted sm')) as Hsorted.
  { eapply perm_trans; [apply sorted_perm|].
    eapply perm_trans; [exact Hsm | apply Permutation_sym, sorted_perm]. }
  destruct (entries_returns (JInt t) (sorted sm')) as [es' Hes'].
  { eapply Permutation_Forall; [exact Hsorted|].
    eapply entries_percent_ok, Hes. }
  exists es'. split; [exact Hes'|].
  rewrite (entries_entry_of _ _ _ Hes), (entries_entry_of _ _ _ Hes').
  apply Permutation_map, Hsorted.
Qed.

(** Two levels, one function in each with the same self-time: swapping the
    levels swaps the two entries. *)
Lemma level_order_permutes_result_witness :
  exists es',
    pyro_top_functions
      (fun _ _ _ =>
         Some (flamebearer_payload ["a"; "b"] [[0; 4; 2; 1]; [0; 4; 2; 0]] 4))
      "http://pyroscope:4040" "bank-api-gateway" "process_cpu" 5 = Ok es' /\
    Permutation
      [mk_entry (JStr "a") 2 (B64_of_Z 50); mk_entry (JStr "b") 2 (B64_of_Z 50)]
      es'.
Proof.
  refine (level_order_permutes_result
    (fun _ _ _ =>
       Some (flamebearer_payload ["a"; "b"] [[0; 4; 2; 0]; [0; 4; 2; 1]] 4))
    _ "http://pyroscope:4040" "bank-api-gateway" "process_cpu" _ _
    ["a"; "b"] [[0; 4; 2; 0]; [0; 4; 2; 1]] [[0; 4; 2; 1]; [0; 4; 2; 0]] 4 5 _
    eq_refl eq_refl
    (flamebearer_payload_decodes _ _ _) (flamebearer_payload_decodes _ _ _)
    _ _ _ _).
  - apply perm_swap.
  - repeat constructor; discriminate.
  - vm_compute. repeat constructor.
  - vm_compute. reflexivity.
Defined.

(** ** [prom_instant]: the keys *)

Lemma before_colon_no_colon (s : string) : has_colon (before_colon s) = false.
Proof.
  unfold has_colon. induction s as [|c rest IH]; [reflexivity|].
  cbn [before_colon]. destruct (Ascii.eqb c ":") eqn:E; [reflexivity|].
  cbn [list_ascii_of_string existsb]. rewrite Ascii.eqb_sym, E. exact IH.
Qed.

Lemma before_colon_app (host rest : string) :
  has_colon host = false ->
  before_colon (host ++ String ":" rest)%string = host.
Proof.
  unfold has_colon. induction host as [|c host IH]; intros H.
  - reflexivity.
  - cbn [list_ascii_of_string existsb] in H.
    apply orb_false_elim in H. destruct H as [Hc Hrest].
    cbn [String.append before_colon]. rewrite Ascii.eqb_sym, Hc.
    rewrite (IH Hrest). reflexivity.
Qed.

Lemma before_colon_id (s : string) :
  has_colon s = false -> before_colon s = s.
Proof.
  unfold has_colon. induction s as [|c rest IH]; intros H; [reflexivity|].
  cbn [list_ascii_of_string existsb] in H.
  apply orb_false_elim in H. destruct H as [Hc Hrest].
  cbn [before_colon]. rewrite Ascii.eqb_sym, Hc, (IH Hrest). reflexivity.
Qed.

Lemma im_set_colon_free (out : instant_map) (k : string) (v : spec_float) :
  colon_free out -> has_colon k = false -> colon_free (im_set out k v).
Proof.
  unfold colon_free. intros Hout Hk.
  induction Hout as [|[k1 v1] rest H1 Hrest IH]; simpl.
  - repeat constructor. exact Hk.
  - destruct (String.eqb k k1); constructor; assumption.
Qed.

Lemma instant_row_colon_free (float_of_str : string -> option spec_float)
  (out out' : instant_map) (r : json) :
  colon_free out -> instant_row float_of_str out r = Ok out' ->
  colon_free out'.
Proof.
  intros Hout. unfold instant_row.
  destruct (dict_item r "metric") as [metric|]; [|discriminate]. cbn [bind].
  destruct (dict_get metric "instance" (JStr "unknown")) as [label|];
    [|discriminate]. cbn [bind].
  destruct label; try discriminate. cbn [py_split_first bind].
  destruct (row_value float_of_str r) as [v|e].
  - intros [= <-]. apply im_set_colon_free;
      [exact Hout | apply before_colon_no_colon].
  - destruct (caught e); [|discriminate]. intros [= <-]. exact Hout.
Qed.

Lemma instant_rows_colon_free (float_of_str : string -> option spec_float)
  (rows : list json) (out out' : instant_map) :
  colon_free out -> instant_rows float_of_str out rows = Ok out' ->
  colon_free out'.
Proof.
  revert out. induction rows as [|r rows IH]; intros out Hout; simpl.
  - intros [= <-]. exact Hout.
  - destruct (instant_row float_of_str out r) as [out1|] eqn:H1;
      [|discriminate].
    cbn [bind]. apply IH. eapply instant_row_colon_free; eassumption.
Qed.

(** X8: no key of the mapping [prom_instant] returns holds a colon: every
    instance is cut before its first [":"]. *)
Theorem prom_instant_keys_have_no_colon
  (float_of_str : string -> option spec_float)
  (fetch_query : string -> string -> option json)
  (base_url expr : string) (out : instant_map) :
  prom_instant float_of_str fetch_query base_url expr = Ok out ->
  colon_free out.
Proof.
  unfold prom_instant.
  destruct (prom_query fetch_query base_url expr) as [rows_json|];
    [|discriminate]. cbn [bind].
  destruct (py_iter rows_json) as [rows|]; [|discriminate]. cbn [bind].
  apply instant_rows_colon_free. constructor.
Qed.

(** One row with the instance ["payment-service:8080"]. *)
Lemma prom_instant_keys_have_no_colon_witness :
  colon_free [("payment-service", S754_finite false 1 (-2))].
Proof.
  refine (prom_instant_keys_have_no_colon
    (fun s => if String.eqb s "0.25" then Some (S754_finite false 1 (-2)) else None)
    (fun _ _ =>
       Some (JObj [("data",
                    JObj [("result",
                           JArr [JObj [("metric",
                                        JObj [("instance",
                                               JStr "payment-service:8080")]);
                                       ("value", JArr [JInt 1700000000;
                                                       JStr "0.25"])]])])]))
    "http://prometheus:9090" "jvm_threads_live" _ _).
  vm_compute. reflexivity.
Defined.

(** X9: a row whose [instance] label is [host:rest], with no colon in
    [host], and whose value converts to a float, is stored under [host]. *)
Theorem instant_row_stores_under_host
  (float_of_str : string -> option spec_float)
  (out : instant_map) (r : json) (metric : list (string * json))
  (host rest : string) (v : spec_float) :
  dict_item r "metric" = Ok (JObj metric) ->
  assoc "instance" metric = Some (JStr (host ++ String ":" rest)%string) ->
  has_colon host = false ->
  row_value float_of_str r = Ok v ->
  instant_row float_of_str out r = Ok (im_set out host v) /\
  im_get (im_set out host v) host = Some v.
Proof.
  intros Hmetric Hlabel Hhost Hvalue. split; [|apply im_get_set].
  unfold instant_row. rewrite Hmetric. cbn [bind dict_get].
  rewrite Hlabel. cbn [bind py_split_first].
  rewrite (before_colon_app host rest Hhost), Hvalue. reflexivity.
Qed.

(** The instance ["payment-service:8080"] with the value ["0.25"]. *)
Lemma instant_row_stores_under_host_witness :
  instant_row
    (fun s => if String.eqb s "0.25" then Some (S754_finite false 1 (-2)) else None)
    []
    (JObj [("metric", JObj [("instance", JStr "payment-service:8080")]);
           ("value", JArr [JInt 1700000000; JStr "0.25"])]) =
  Ok [("payment-service", S754_finite false 1 (-2))].
Proof.
  refine (proj1 (instant_row_stores_under_host
    (fun s => if String.eqb s "0.25" then Some (S754_finite false 1 (-2)) else None)
    []
    (JObj [("metric", JObj [("instance", JStr "payment-service:8080")]);
           ("value", JArr [JInt 1700000000; JStr "0.25"])])
    [("instance", JStr "payment-service:8080")]
    "payment-service" "8080" (S754_finite false 1 (-2))
    eq_refl eq_refl eq_refl eq_refl)).
Defined.

(** ** [prom_instant]: the rows *)

Lemma instant_rows_app_bind (float_of_str : string -> option spec_float)
  (out : instant_map) (rows1 rows2 : list json) :
  instant_rows float_of_str out (rows1 ++ rows2) =
  (out1 <- instant_rows float_of_str out rows1 ;;
   instant_rows float_of_str out1 rows2).
Proof.
  revert out. induction rows1 as [|r rows1 IH]; intros out; simpl.
  - reflexivity.
  - destruct (instant_row float_of_str out r) as [out'|]; cbn [bind];
      [apply IH | reflexivity].
Qed.

(** One turn of the loop on a row whose key is [k]. *)
Lemma instant_row_keyed (float_of_str : string -> option spec_float)
  (out : instant_map) (r : json) (k : string) :
  row_key r = Some k ->
  instant_row float_of_str out r =
  match row_value float_of_str r with
  | Ok v => Ok (im_set out k v)
  | Raise e => if caught e then Ok out else Raise e
  end.
Proof.
  unfold row_key, instant_row.
  destruct (dict_item r "metric") as [metric|]; [|discriminate]. cbn [bind].
  destruct (dict_get metric "instance" (JStr "unknown")) as [label|];
    [|discriminate]. cbn [bind].
  destruct label; try discriminate. intros [= <-]. reflexivity.
Qed.

Lemma instant_row_returns (float_of_str : string -> option spec_float)
  (out out' : instant_map) (r : json) :
  instant_row float_of_str out r = Ok out' ->
  exists k,
    row_key r = Some k /\
    ((exists v, row_value float_of_str r = Ok v /\ out' = im_set out k v) \/
     (exists e, row_value float_of_str r = Raise e /\ caught e = true /\
                out' = out)).
Proof.
  intros H.
  destruct (row_key r) as [k|] eqn:Hk.
  - exists k. split; [reflexivity|].
    rewrite (instant_row_keyed _ _ _ _ Hk) in H.
    destruct (row_value float_of_str r) as [v|e].
    + left. exists v. split; [reflexivity | congruence].
    + right. exists e. destruct (caught e); [|discriminate].
      repeat split; congruence.
  - exfalso. revert H Hk. unfold row_key, instant_row.
    destruct (dict_item r "metric") as [metric|]; [|discriminate]. cbn [bind].
    destruct (dict_get metric "instance" (JStr "unknown")) as [label|];
      [|discriminate]. cbn [bind].
    destruct label; discriminate.
Qed.

(** X10: a row whose value does not convert ([IndexError], [ValueError] or
    [TypeError] from [float(r["value"][1])]) is skipped: the result is the
    one of the same rows without it. *)
Theorem bad_value_rows_are_skipped
  (float_of_str : string -> option spec_float)
  (fetch_query fetch_query' : string -> string -> option json)
  (base_url expr : string) (before after : list json) (r : json)
  (k : string) (e : exn) :
  prom_query fetch_query base_url expr = Ok (JArr (before ++ r :: after)) ->
  prom_query fetch_query' base_url expr = Ok (JArr (before ++ after)) ->
  row_key r = Some k ->
  row_value float_of_str r = Raise e ->
  caught e = true ->
  prom_instant float_of_str fetch_query base_url expr =
  prom_instant float_of_str fetch_query' base_url expr.
Proof.
  intros Hq Hq' Hk Hv Hc. unfold prom_instant. rewrite Hq, Hq'.
  cbn [bind py_iter]. rewrite !instant_rows_app_bind.
  destruct (instant_rows float_of_str [] before) as [out0|]; cbn [bind];
    [|reflexivity].
  cbn [instant_rows]. rewrite (instant_row_keyed _ _ _ _ Hk), Hv, Hc.
  reflexivity.
Qed.

(** A row whose value list has no index 1, before a row that converts. *)
Lemma bad_value_rows_are_skipped_witness :
  prom_instant sample_float
    (fun _ _ =>
       Some (sample_response
               [sample_row "a:1" [JInt 1700000000];
                sample_row "b:1" [JInt 1700000000; JStr "0.25"]]))
    "http://prometheus:9090" "up" =
  prom_instant sample_float
    (fun _ _ =>
       Some (sample_response
               [sample_row "b:1" [JInt 1700000000; JStr "0.25"]]))
    "http://prometheus:9090" "up".
Proof.
  exact (bad_value_rows_are_skipped sample_float
    (fun _ _ =>
       Some (sample_response
               [sample_row "a:1" [JInt 1700000000];
                sample_row "b:1" [JInt 1700000000; JStr "0.25"]]))
    (fun _ _ =>
       Some (sample_response
               [sample_row "b:1" [JInt 1700000000; JStr "0.25"]]))
    "http://prometheus:9090" "up" []
    [sample_row "b:1" [JInt 1700000000; JStr "0.25"]]
    (sample_row "a:1" [JInt 1700000000])
    "a" IndexError eq_refl eq_refl eq_refl eq_refl eq_refl).
Defined.

Lemma im_get_set_other (out : instant_map) (k k' : string) (v : spec_float) :
  k <> k' -> im_get (im_set out k' v) k = im_get out k.
Proof.
  intros Hne. induction out as [|[k1 v1] rest IH]; simpl.
  - destruct (String.eqb k k') eqn:E; [|reflexivity].
    apply String.eqb_eq in E. contradiction.
  - destruct (String.eqb k' k1) eqn:E1; simpl.
    + apply String.eqb_eq in E1. subst k1.
      destruct (String.eqb k k') eqn:E; [|reflexivity].
      apply String.eqb_eq in E. contradiction.
    + destruct (String.eqb k k1); [reflexivity | exact IH].
Qed.

Lemma instant_rows_keeps (float_of_str : string -> option spec_float)
  (k : string) (v : spec_float) (rows : list json) (out out' : instant_map) :
  (forall r', In r' rows -> row_key r' = Some k ->
              forall v', row_value float_of_str r' <> Ok v') ->
  im_get out k = Some v ->
  instant_rows float_of_str out rows = Ok out' ->
  im_get out' k = Some v.
Proof.
  revert out. induction rows as [|r rows IH]; intros out Hafter Hget; simpl.
  - intros [= <-]. exact Hget.
  - destruct (instant_row float_of_str out r) as [out1|] eqn:H1;
      [|discriminate].
    cbn [bind]. apply IH; [intros r' Hr'; apply Hafter; right; exact Hr'|].
    destruct (instant_row_returns _ _ _ _ H1)
      as (k' & Hk' & [(v' & Hv' & ->) | (e & _ & _ & ->)]); [|exact Hget].
    destruct (String.eqb k k') eqn:E.
    + apply String.eqb_eq in E. subst k'.
      exfalso. exact (Hafter r (or_introl eq_refl) Hk' v' Hv').
    + apply String.eqb_neq in E. rewrite im_get_set_other; assumption.
Qed.

(** X11: the last row of an instance wins.  When [prom_instant] returns,
    an instance maps to the value of its last row whose value converts. *)
Theorem last_row_of_an_instance_wins
  (float_of_str : string -> option spec_float)
  (fetch_query : string -> string -> option json)
  (base_url expr : string) (before after : list json) (r : json)
  (k : string) (v : spec_float) (out : instant_map) :
  prom_query fetch_query base_url expr = Ok (JArr (before ++ r :: after)) ->
  row_key r = Some k ->
  row_value float_of_str r = Ok v ->
  (forall r', In r' after -> row_key r' = Some k ->
              forall v', row_value float_of_str r' <> Ok v') ->
  prom_instant float_of_str fetch_query base_url expr = Ok out ->
  im_get out k = Some v.
Proof.
  intros Hq Hk Hv Hafter. unfold prom_instant. rewrite Hq.
  cbn [bind py_iter]. rewrite instant_rows_app_bind.
  destruct (instant_rows float_of_str [] before) as [out0|]; [|discriminate].
  cbn [bind instant_rows]. rewrite (instant_row_keyed _ _ _ _ Hk), Hv.
  cbn [bind]. apply (instant_rows_keeps _ k v after); [exact Hafter|].
  apply im_get_set.
Qed.

(** Two rows of the instance [a], then a row of [b]: [a] maps to the value
    of its second row. *)
Lemma last_row_of_an_instance_wins_witness :
  im_get
    [("a", S754_finite false 1 (-1)); ("b", S754_finite false 1 (-2))] "a" =
  Some (S754_finite false 1 (-1)).
Proof.
  refine (last_row_of_an_instance_wins sample_float
    (fun _ _ =>
       Some (sample_response
               [sample_row "a:1" [JInt 1700000000; JStr "0.25"];
                sample_row "a:2" [JInt 1700000000; JStr "0.5"];
                sample_row "b:1" [JInt 1700000000; JStr "0.25"]]))
    "http://prometheus:9090" "up"
    [sample_row "a:1" [JInt 1700000000; JStr "0.25"]]
    [sample_row "b:1" [JInt 1700000000; JStr "0.25"]]
    (sample_row "a:2" [JInt 1700000000; JStr "0.5"])
    "a" (S754_finite false 1 (-1)) _
    eq_refl eq_refl eq_refl _ _).
  - intros r' [<-|[]] Hkey. discriminate.
  - vm_compute. reflexivity.
Defined.

(** X12: the [try] of [prom_instant] does not catch [KeyError].  A row dict
    without a [metric] key, or one with a usable metric and without a
    [value] key, makes the whole call raise [KeyError], once the rows
    before it are processed. *)
Theorem row_without_key_raises
  (float_of_str : string -> option spec_float)
  (fetch_query : string -> string -> option json)
  (base_url expr : string) (before after : list json)
  (fields : list (string * json)) (out0 : instant_map) :
  prom_query fetch_query base_url expr =
    Ok (JArr (before ++ JObj fields :: after)) ->
  instant_rows float_of_str [] before = Ok out0 ->
  assoc "metric" fields = None \/
  ((exists k, row_key (JObj fields) = Some k) /\ assoc "value" fields = None) ->
  prom_instant float_of_str fetch_query base_url expr = Raise KeyError.
Proof.
  intros Hq Hbefore H. unfold prom_instant. rewrite Hq.
  cbn [bind py_iter]. rewrite instant_rows_app_bind, Hbefore.
  cbn [bind instant_rows].
  destruct H as [Hm | [(k & Hk) Hv]].
  - unfold instant_row. cbn [dict_item]. rewrite Hm. reflexivity.
  - rewrite (instant_row_keyed _ _ _ _ Hk).
    unfold row_value. cbn [dict_item]. rewrite Hv. reflexivity.
Qed.

(** A row with an instance and no value, after a row that converts. *)
Lemma row_without_key_raises_witness :
  prom_instant sample_float
    (fun _ _ =>
       Some (sample_response
               [sample_row "a:1" [JInt 1700000000; JStr "0.25"];
                JObj [("metric", JObj [("instance", JStr "b:1")])]]))
    "http://prometheus:9090" "up" = Raise KeyError.
Proof.
  refine (row_without_key_raises sample_float
    (fun _ _ =>
       Some (sample_response
               [sample_row "a:1" [JInt 1700000000; JStr "0.25"];
                JObj [("metric", JObj [("instance", JStr "b:1")])]]))
    "http://prometheus:9090" "up"
    [sample_row "a:1" [JInt 1700000000; JStr "0.25"]] []
    [("metric", JObj [("instance", JStr "b:1")])]
    [("a", S754_finite false 1 (-2))] eq_refl eq_refl _).
  right. split; [exists "b"|]; reflexivity.
Defined.

Lemma im_set_length (out : instant_map) (k : string) (v : spec_float) :
  (List.length (im_set out k v) <= S (List.length out))%nat.
Proof.
  induction out as [|[k1 v1] rest IH]; simpl.
  - lia.
  - destruct (String.eqb k k1); simpl; lia.
Qed.

Lemma well_shaped_row_returns (float_of_str : string -> option spec_float)
  (out : instant_map) (r : json) :
  well_shaped_row r ->
  exists out',
    instant_row float_of_str out r = Ok out' /\
    (List.length out' <= S (List.length out))%nat.
Proof.
  intros (fields & metric & vs & -> & Hm & Hlabel & Hv & Hsecond).
  assert (exists k, row_key (JObj fields) = Some k) as (k & Hk).
  { unfold row_key. cbn [dict_item]. rewrite Hm. cbn [dict_get].
    destruct Hlabel as [-> | (s & ->)]; eexists; reflexivity. }
  rewrite (instant_row_keyed _ _ _ _ Hk).
  unfold row_value. cbn [dict_item]. rewrite Hv. cbn [bind py_getitem].
  unfold seq_item. cbn [Z.ltb Z.compare].
  destruct ((0 <=? 1) && (1 <? Z.of_nat (List.length vs))); cbn [bind caught].
  - change (Z.to_nat 1) with 1%nat.
    destruct (nth_error vs 1) as [x|] eqn:Hx; cbn [bind caught].
    + destruct (Hsecond x eq_refl) as (s & ->). cbn [py_float].
      destruct (float_of_str s); cbn [caught].
      * eexists. split; [reflexivity | apply im_set_length].
      * exists out. split; [reflexivity | lia].
    + exists out. split; [reflexivity | lia].
  - exists out. split; [reflexivity | lia].
Qed.

Lemma well_shaped_rows_return (float_of_str : string -> option spec_float)
  (rows : list json) (out : instant_map) :
  Forall well_shaped_row rows ->
  exists out',
    instant_rows float_of_str out rows = Ok out' /\
    (List.length out' <= List.length out + List.length rows)%nat.
Proof.
  intros H. revert out. induction H as [|r rows Hr _ IH]; intros out.
  - exists out. split; [reflexivity | simpl; lia].
  - destruct (well_shaped_row_returns float_of_str out r Hr) as (out1 & H1 & L1).
    destruct (IH out1) as (out' & H' & L').
    exists out'. cbn [instant_rows]. rewrite H1. cbn [bind].
    split; [exact H' | simpl; lia].
Qed.

(** X13: when every result row has the documented shape (a [metric] dict
    with a string [instance] or none, a [value] list with a string, if
    anything, at index 1), [prom_instant] returns a mapping, with one
    entry per row at most: no row raises, whatever its text. *)
Theorem prom_instant_returns_on_well_shaped_rows
  (float_of_str : string -> option spec_float)
  (fetch_query : string -> string -> option json)
  (base_url expr : string) (rows : list json) :
  prom_query fetch_query base_url expr = Ok (JArr rows) ->
  Forall well_shaped_row rows ->
  exists out,
    prom_instant float_of_str fetch_query base_url expr = Ok out /\
    (List.length out <= List.length rows)%nat.
Proof.
  intros Hq Hrows. unfold prom_instant. rewrite Hq. cbn [bind py_iter].
  destruct (well_shaped_rows_return float_of_str rows [] Hrows)
    as (out & Hout & Hlen).
  exists out. split; [exact Hout | exact Hlen].
Qed.

(** A row that converts and a row whose text is no number. *)
Lemma prom_instant_returns_on_well_shaped_rows_witness :
  exists out,
    prom_instant sample_float
      (fun _ _ =>
         Some (sample_response
                 [sample_row "a:1" [JInt 1700000000; JStr "0.25"];
                  sample_row "b:1" [JInt 1700000000; JStr "NaN?"]]))
      "http://prometheus:9090" "up" = Ok out /\
    (List.length out <= 2)%nat.
Proof.
  refine (prom_instant_returns_on_well_shaped_rows sample_float
    (fun _ _ =>
       Some (sample_response
               [sample_row "a:1" [JInt 1700000000; JStr "0.25"];
                sample_row "b:1" [JInt 1700000000; JStr "NaN?"]]))
    "http://prometheus:9090" "up"
    [sample_row "a:1" [JInt 1700000000; JStr "0.25"];
     sample_row "b:1" [JInt 1700000000; JStr "NaN?"]] eq_refl _).
  repeat constructor.
  - eexists _, _, _. repeat split; try reflexivity.
    + right. eexists. reflexivity.
    + intros x [= <-]. eexists. reflexivity.
  - eexists _, _, _. repeat split; try reflexivity.
    + right. eexists. reflexivity.
    + intros x [= <-]. eexists. reflexivity.
Defined.

(** X14: a failed fetch, a response without [data] and a [data] without
    [result] give the empty mapping, and [prom_query] the empty list. *)
Theorem prom_instant_empty_without_result
  (float_of_str : string -> option spec_float)
  (fetch_query : string -> string -> option json)
  (base_url expr : string) :
  fetch_query base_url expr = None \/
  (exists fields,
      fetch_query base_url expr = Some (JObj fields) /\
      (assoc "data" fields = None \/
       exists d, assoc "data" fields = Some (JObj d) /\
                 assoc "result" d = None)) ->
  prom_query fetch_query base_url expr = Ok (JArr []) /\
  prom_instant float_of_str fetch_query base_url expr = Ok [].
Proof.
  intros H.
  assert (prom_query fetch_query base_url expr = Ok (JArr [])) as Hq.
  { unfold prom_query.
    destruct H as [-> | (fields & -> & [Hd | (d & Hd & Hr)])].
    - reflexivity.
    - cbn [dict_get]. rewrite Hd. reflexivity.
    - cbn [dict_get]. rewrite Hd. cbn [bind dict_get]. rewrite Hr.
      reflexivity. }
  split; [exact Hq|]. unfold prom_instant. rewrite Hq. reflexivity.
Qed.

(** An error response of Prometheus: a status and no [data]. *)
Lemma prom_instant_empty_without_result_witness :
  prom_instant sample_float
    (fun _ _ => Some (JObj [("status", JStr "error")]))
    "http://prometheus:9090" "up" = Ok [].
Proof.
  refine (proj2 (prom_instant_empty_without_result sample_float
    (fun _ _ => Some (JObj [("status", JStr "error")]))
    "http://prometheus:9090" "up" _)).
  right. eexists. split; [reflexivity|]. left. reflexivity.
Defined.

(** ** [prom_alerts] *)

Lemma firing_filter (alerts : list json) :
  forallb is_dict alerts = true ->
  firing alerts = Ok (filter state_is_firing alerts).
Proof.
  induction alerts as [|a rest IH]; [reflexivity|].
  cbn [forallb]. intros H. apply andb_prop in H. destruct H as [Ha Hrest].
  destruct a; try discriminate.
  cbn [firing dict_get filter state_is_firing]. rewrite (IH Hrest).
  destruct (assoc "state" fields) as [state|]; cbn [bind py_eq_str];
    [|reflexivity].
  destruct state; reflexivity.
Qed.

Lemma firing_raises (alerts : list json) :
  forallb is_dict alerts = false -> firing alerts = Raise AttributeError.
Proof.
  induction alerts as [|a rest IH]; [discriminate|].
  cbn [forallb firing]. intros H.
  destruct a; try reflexivity.
  cbn [is_dict andb] in H. rewrite (IH H).
  cbn [dict_get]. destruct (assoc "state" fields); reflexivity.
Qed.

(** X15: [prom_alerts] returns the alerts whose [state] is ["firing"], all
    of them and in the order of the response, when every alert is a dict;
    an alert that is no dict makes it raise [AttributeError].  An alert
    without a [state], or with a [state] that is no string, is dropped. *)
Theorem prom_alerts_keeps_firing
  (fetch_alerts : string -> option json) (base_url : string)
  (fields d : list (string * json)) (alerts : list json) :
  fetch_alerts base_url = Some (JObj fields) ->
  assoc "data" fields = Some (JObj d) ->
  assoc "alerts" d = Some (JArr alerts) ->
  (forallb is_dict alerts = true ->
   prom_alerts fetch_alerts base_url = Ok (filter state_is_firing alerts)) /\
  (forallb is_dict alerts = false ->
   prom_alerts fetch_alerts base_url = Raise AttributeError).
Proof.
  intros Hfetch Hd Ha. unfold prom_alerts. rewrite Hfetch.
  cbn [dict_get]. rewrite Hd. cbn [bind dict_get]. rewrite Ha.
  cbn [bind py_iter].
  split; [apply firing_filter | apply firing_raises].
Qed.

(** A firing alert, a pending one, one without a state. *)
Lemma prom_alerts_keeps_firing_witness :
  prom_alerts
    (fun _ =>
       Some (JObj [("data",
          JObj [("alerts",
             JArr [JObj [("state", JStr "firing"); ("labels", JObj [])];
                   JObj [("state", JStr "pending")];
                   JObj [("labels", JObj [])]])])]))
    "http://prometheus:9090" =
  Ok [JObj [("state", JStr "firing"); ("labels", JObj [])]].
Proof.
  refine (proj1 (prom_alerts_keeps_firing
    (fun _ =>
       Some (JObj [("data",
          JObj [("alerts",
             JArr [JObj [("state", JStr "firing"); ("labels", JObj [])];
                   JObj [("state", JStr "pending")];
                   JObj [("labels", JObj [])]])])]))
    "http://prometheus:9090" _ _
    [JObj [("state", JStr "firing"); ("labels", JObj [])];
     JObj [("state", JStr "pending")];
     JObj [("labels", JObj [])]]
    eq_refl eq_refl eq_refl) eq_refl).
Defined.

(** ** The service name tables *)

Lemma sd_get_In (d : str_dict) (k v : string) :
  NoDup (map fst d) -> (sd_get d k = Some v <-> In (k, v) d).
Proof.
  induction d as [|[k1 v1] rest IH]; intros Hnd; simpl.
  - split; [discriminate | intros []].
  - simpl in Hnd. apply NoDup_cons_iff in Hnd. destruct Hnd as [Hnot Hnd].
    destruct (String.eqb k k1) eqn:E.
    + apply String.eqb_eq in E. subst k1. split.
      * intros [= ->]. left. reflexivity.
      * intros [[= ->] | Hin]; [reflexivity|].
        exfalso. apply Hnot. change k with (fst (k, v)). apply in_map, Hin.
    + apply String.eqb_neq in E. rewrite (IH Hnd). split.
      * intros H. right. exact H.
      * intros [[= <- _] | H]; [contradiction | exact H].
Qed.

Lemma sd_set_fresh (d : str_dict) (k v : string) :
  ~ In k (map fst d) -> sd_set d k v = d ++ [(k, v)].
Proof.
  induction d as [|[k1 v1] rest IH]; intros Hnot; simpl.
  - reflexivity.
  - destruct (String.eqb k k1) eqn:E.
    + apply String.eqb_eq in E. subst k1. exfalso. apply Hnot. left. reflexivity.
    + rewrite IH; [reflexivity|]. intros H. apply Hnot. right. exact H.
Qed.

Lemma invert_from (d acc : str_dict) :
  NoDup (map fst acc ++ map snd d) ->
  fold_left (fun acc kv => sd_set acc (snd kv) (fst kv)) d acc =
  acc ++ map swap d.
Proof.
  revert acc. induction d as [|[k v] rest IH]; intros acc Hnd; simpl.
  - symmetry. apply app_nil_r.
  - simpl in Hnd.
    rewrite sd_set_fresh.
    + rewrite IH.
      * rewrite <- app_assoc. reflexivity.
      * rewrite map_app, <- app_assoc. exact Hnd.
    + apply NoDup_remove_2 in Hnd. intros H. apply Hnd.
      apply in_or_app. left. exact H.
Qed.

(** Inverting a dict whose values are distinct swaps each item. *)
Lemma invert_swaps (d : str_dict) :
  NoDup (map snd d) -> invert d = map swap d.
Proof. intros H. unfold invert. rewrite invert_from; [reflexivity | exact H]. Qed.

Lemma invert_round_trip (d : str_dict) (k v : string) :
  NoDup (map fst d) -> NoDup (map snd d) ->
  (sd_get d k = Some v <-> sd_get (invert d) v = Some k).
Proof.
  intros Hk Hv. rewrite (invert_swaps d Hv), (sd_get_In d k v Hk).
  rewrite sd_get_In.
  - rewrite in_map_iff. split.
    + intros H. exists (k, v). split; [reflexivity | exact H].
    + intros ([k' v'] & [= <- <-] & H). exact H.
  - rewrite map_map. exact Hv.
Qed.

Lemma all_distinct_NoDup (l : list string) :
  all_distinct l = true -> NoDup l.
Proof.
  induction l as [|x rest IH]; intros H; constructor.
  - apply andb_prop in H. destruct H as [H _].
    intros Hin. apply existsb_eqb_In in Hin. rewrite Hin in H. discriminate.
  - apply IH. apply andb_prop in H. apply H.
Qed.

(** X16: [REVERSE_MAP] is the inverse of [SVC_MAP]: a container name maps
    to an application name exactly when that name maps back to it, so no
    two containers share an application name, and [REVERSE_MAP] has the
    eight entries of [SVC_MAP]. *)
Theorem service_maps_are_inverse :
  (forall container app,
      sd_get SVC_MAP container = Some app <->
      sd_get REVERSE_MAP app = Some container) /\
  List.length REVERSE_MAP = List.length SVC_MAP /\
  (forall container app,
      sd_get SVC_MAP container = Some app ->
      app = ("bank-" ++ container)%string).
Proof.
  split; [|split].
  - intros container app. apply invert_round_trip;
      apply all_distinct_NoDup; reflexivity.
  - reflexivity.
  - intros container app H.
    apply sd_get_In in H; [|apply all_distinct_NoDup; reflexivity].
    simpl in H.
    repeat (destruct H as [[= <- <-] | H]; [reflexivity|]).
    destruct H.
Qed.

(** ** The scheme guard of [_fetch_json] *)

Lemma prefix_app (p s t : string) :
  (String.length p <= String.length s)%nat ->
  String.prefix p (s ++ t) = String.prefix p s.
Proof.
  revert s. induction p as [|a p IH]; intros s Hlen.
  - destruct (s ++ t)%string; destruct s; reflexivity.
  - destruct s as [|b s]; simpl in Hlen; [lia|].
    simpl. destruct (Ascii.ascii_dec a b); [apply IH; lia | reflexivity].
Qed.

(** The guard on a URL that starts with [base_url], for a [base_url] of
    eight characters or more, is the guard on [base_url]. *)
Lemma startswith_http_app (base_url rest : string) :
  (8 <= String.length base_url)%nat ->
  startswith_http (base_url ++ rest) = startswith_http base_url.
Proof.
  intros Hlen. unfold startswith_http.
  rewrite !prefix_app by (simpl; lia). reflexivity.
Qed.

(** X17: a [base_url] of eight characters or more that starts with neither
    ["http://"] nor ["https://"] is never requested: whatever the transport
    would answer, [pyro_render] returns [None] and every client returns its
    empty result. *)
Theorem non_http_base_url_is_not_requested
  (urlopen_json :
     string -> string -> option string -> list (string * string) -> Z -> attempt)
  (quote : string -> string) (json_dumps : json -> string)
  (float_of_str : string -> option spec_float)
  (base_url expr label service profile_id time_range : string) (n : Z) :
  (8 <= String.length base_url)%nat ->
  startswith_http base_url = false ->
  prom_query_http urlopen_json quote base_url expr = Returned (Ok (JArr [])) /\
  prom_instant_http urlopen_json quote float_of_str base_url expr =
    Returned (Ok []) /\
  prom_alerts_http urlopen_json base_url = Returned (Ok []) /\
  pyro_label_values_http urlopen_json json_dumps base_url label =
    Returned (Ok (JArr [])) /\
  pyro_render urlopen_json quote base_url profile_id service time_range =
    Returned None /\
  pyro_top_functions_http urlopen_json quote base_url service profile_id n =
    Returned (Ok []).
Proof.
  intros Hlen Hguard.
  unfold prom_query_http, prom_instant_http, prom_alerts_http,
    pyro_label_values_http, pyro_top_functions_http, pyro_render,
    _fetch_json, query_url, alerts_url, labels_url, render_url.
  rewrite !startswith_http_app by exact Hlen. rewrite Hguard.
  repeat split.
Qed.

(** A [file://] URL, with a transport that would answer. *)
Lemma non_http_base_url_is_not_requested_witness :
  pyro_top_functions_http
    (fun _ _ _ _ _ =>
       Parsed (flamebearer_payload ["a"] [[0; 5; 5; 0]] 5))
    (fun s => s) "file:///var/lib/pyroscope" "bank-api-gateway" "process_cpu" 5 =
  Returned (Ok []).
Proof.
  refine (proj2 (proj2 (proj2 (proj2 (proj2
    (non_http_base_url_is_not_requested
       (fun _ _ _ _ _ =>
          Parsed (flamebearer_payload ["a"] [[0; 5; 5; 0]] 5))
       (fun s => s) (fun _ => EmptyString) sample_float
       "file:///var/lib/pyroscope" "up" "service_name"
       "bank-api-gateway" "process_cpu" "1h" 5 _ eq_refl)))))).
  simpl. lia.
Defined.

(** X18: when the request fails with an exception [_fetch_json] catches
    ([HTTPError], [URLError], [JSONDecodeError] or [OSError]), or the
    response is the JSON [null], [_fetch_json] returns [None] and every
    client returns its empty result, for every [base_url]. *)
Theorem failed_fetch_gives_empty_results
  (urlopen_json :
     string -> string -> option string -> list (string * string) -> Z -> attempt)
  (quote : string -> string) (json_dumps : json -> string)
  (float_of_str : string -> option spec_float)
  (base_url expr label service profile_id time_range : string) (n : Z) :
  (forall url method body headers timeout,
      gives_no_data (urlopen_json url method body headers timeout) = true) ->
  (forall url method body headers timeout,
      _fetch_json urlopen_json url method body headers timeout =
      Returned None) /\
  prom_query_http urlopen_json quote base_url expr = Returned (Ok (JArr [])) /\
  prom_instant_http urlopen_json quote float_of_str base_url expr =
    Returned (Ok []) /\
  prom_alerts_http urlopen_json base_url = Returned (Ok []) /\
  pyro_label_values_http urlopen_json json_dumps base_url label =
    Returned (Ok (JArr [])) /\
  pyro_render urlopen_json quote base_url profile_id service time_range =
    Returned None /\
  pyro_top_functions_http urlopen_json quote base_url service profile_id n =
    Returned (Ok []).
Proof.
  intros Hfail.
  assert (forall url method body headers timeout,
             _fetch_json urlopen_json url method body headers timeout =
             Returned None) as Hnone.
  { intros url method body headers timeout. unfold _fetch_json.
    destruct (negb (startswith_http url)); [reflexivity|].
    specialize (Hfail url method body headers timeout).
    destruct (urlopen_json url method body headers timeout) as [data| | | |];
      try reflexivity; try discriminate.
    destruct data; try discriminate. reflexivity. }
  split; [exact Hnone|].
  unfold prom_query_http, prom_instant_http, prom_alerts_http,
    pyro_label_values_http, pyro_top_functions_http, pyro_render.
  rewrite !Hnone. repeat split.
Qed.

(** A server that answers 503 to every request. *)
Lemma failed_fetch_gives_empty_results_witness :
  prom_instant_http (fun _ _ _ _ _ => RaisedHTTPError 503) (fun s => s)
    sample_float "http://prometheus:9090" "up" = Returned (Ok []).
Proof.
  refine (proj1 (proj2 (proj2 (failed_fetch_gives_empty_results
    (fun _ _ _ _ _ => RaisedHTTPError 503) (fun s => s)
    (fun _ => EmptyString) sample_float
    "http://prometheus:9090" "up" "service_name"
    "bank-api-gateway" "process_cpu" "1h" 5 _)))).
  reflexivity.
Defined.

(** ** A profile without a contributing frame *)

(** X19: when no frame contributes, each having a self-time of zero or
    less or a name index of [len(names)] or more, [pyro_top_functions]
    returns the empty sequence, though [names] and [numTicks] are there. *)
Theorem no_contributing_frame_returns_empty
  (pyro_render : string -> string -> string -> option json)
  (base_url service profile_id : string) (data : json)
  (ns : list string) (lvls : list (list Z)) (t n : Z) :
  pyro_render base_url profile_id service = Some data ->
  decodes_to data ns lvls t ->
  indexes_from_zero lvls ->
  Forall (fun g => self_ticks g <= 0 \/
                   Z.of_nat (List.length ns) <= name_index g) (frames lvls) ->
  pyro_top_functions pyro_render base_url service profile_id n = Ok [].
Proof.
  intros Hfetch Hdec Hidx Hnone. unfold pyro_top_functions. rewrite Hfetch.
  rewrite (top_functions_decoded _ _ _ _ _ Hdec Hidx).
  destruct (t =? 0); [reflexivity|].
  assert (contributions ns lvls = []) as ->.
  { unfold contributions, group_contributions.
    induction Hnone as [|g gs Hg _ IH]; [reflexivity|].
    cbn [filter]. unfold contributes at 1.
    replace ((name_index g <? Z.of_nat (List.length ns)) && (0 <? self_ticks g))
      with false; [exact IH|].
    symmetry. apply andb_false_iff.
    destruct Hg as [Hs | Hi]; [right; apply Z.ltb_ge | left; apply Z.ltb_ge];
      assumption. }
  cbn [accumulate fold_left sorted fold_right]. rewrite slice_to_nil.
  reflexivity.
Qed.

(** One frame with no self-time: [levels = [[0,5,0,0]]]. *)
Lemma no_contributing_frame_returns_empty_witness :
  pyro_top_functions
    (fun _ _ _ => Some (flamebearer_payload ["a"] [[0; 5; 0; 0]] 5))
    "http://pyroscope:4040" "bank-api-gateway" "process_cpu" 5 = Ok [].
Proof.
  refine (no_contributing_frame_returns_empty _
    "http://pyroscope:4040" "bank-api-gateway" "process_cpu" _
    ["a"] [[0; 5; 0; 0]] 5 5
    eq_refl (flamebearer_payload_decodes _ _ _) _ _).
  - repeat constructor; discriminate.
  - constructor; [left; discriminate | constructor].
Defined.
